(** * CompanyResearch: the form renderer and the agent relay of [app.py]

    A shallow embedding of [src/app.py]: the start-up configuration check,
    the HTML renderer [render] and the relay [call_agent], together with
    the properties the specification states about them.

    Python strings are sequences of Unicode code points; [str.replace],
    [str.strip] and [str.join] are modelled on that representation.  The
    remote agent service is an arbitrary state transformer: every SDK call
    takes the state of the world and returns either a value or a raised
    exception, with the next state. *)

From Stdlib Require Import NArith List Ascii String Lia.
From Stdlib Require Import DecimalString HexadecimalString.
From stdpp Require Import base option list gmap strings.

#[local] Open Scope list_scope.
#[local] Open Scope N_scope.

(** ** Python strings *)

Module PyStr.

(** A character is a Unicode code point. *)
Definition char := N.
Definition pystr := list char.

(** String literals of the source, read as code points (the literals of
    [app.py] are ASCII). *)
Definition lit (s : string) : pystr :=
  map N_of_ascii (list_ascii_of_string s).

Definition dq : pystr := [34].   (* the double quote *)
Definition nl : pystr := [10].   (* "\n" *)

(** [s.startswith(p)] *)
Fixpoint startswith (p s : pystr) : bool :=
  match p, s with
  | [], _ => true
  | _ :: _, [] => false
  | a :: p', b :: s' => if N.eqb a b then startswith p' s' else false
  end.

(** [p in s] *)
Fixpoint occurs (p s : pystr) : bool :=
  startswith p s ||
  match s with
  | [] => false
  | _ :: s' => occurs p s'
  end.

(** Number of (possibly overlapping) positions of [s] where [p] starts. *)
Fixpoint count_at (p s : pystr) : nat :=
  ((if startswith p s then 1 else 0) +
   match s with
   | [] => 0
   | _ :: s' => count_at p s'
   end)%nat.

(** [s.replace(old, new)] for a non-empty [old]: scan from the left; where
    [old] starts, emit [new] and skip the matched characters ([skip] counts
    the characters of the current match still to be dropped). *)
Fixpoint replace_from (old new : pystr) (skip : nat) (s : pystr) : pystr :=
  match s with
  | [] => []
  | c :: s' =>
      match skip with
      | S k => replace_from old new k s'
      | O =>
          if startswith old s
          then new ++ replace_from old new (length old - 1) s'
          else c :: replace_from old new 0 s'
      end
  end.

(** [s.replace(old, new)].  With an empty [old] Python inserts [new] before
    every character and at the end. *)
Definition replace (old new s : pystr) : pystr :=
  match old with
  | [] => new ++ flat_map (fun c => c :: new) s
  | _ :: _ => replace_from old new 0 s
  end.

(** [str.isspace] on one character: the code points CPython's
    [_PyUnicode_IsWhitespace] accepts. *)
Definition is_space (c : char) : bool :=
  ((9 <=? c) && (c <=? 13)) || ((28 <=? c) && (c <=? 32)) ||
  (c =? 133) || (c =? 160) || (c =? 5760) ||
  ((8192 <=? c) && (c <=? 8202)) ||
  (c =? 8232) || (c =? 8233) || (c =? 8239) || (c =? 8287) || (c =? 12288).

Fixpoint lstrip (s : pystr) : pystr :=
  match s with
  | [] => []
  | c :: s' => if is_space c then lstrip s' else s
  end.

Definition rstrip (s : pystr) : pystr := rev (lstrip (rev s)).

(** [s.strip()] *)
Definition strip (s : pystr) : pystr := rstrip (lstrip s).

(** [sep.join(xs)] *)
Fixpoint join (sep : pystr) (xs : list pystr) : pystr :=
  match xs with
  | [] => []
  | [x] => x
  | x :: xs' => x ++ sep ++ join sep xs'
  end.

(** Characters that end a line ([str.splitlines]). *)
Definition is_linebreak (c : char) : bool :=
  ((10 <=? c) && (c <=? 13)) || ((28 <=? c) && (c <=? 30)) ||
  (c =? 133) || (c =? 8232) || (c =? 8233).

Definition single_line (s : pystr) : bool :=
  forallb (fun c => negb (is_linebreak c)) s.

End PyStr.
Import PyStr.

(** ** Python values and exceptions *)

(** The exception classes that occur.  [KeyboardInterrupt] and [SystemExit]
    derive from [BaseException] only. *)
Inductive exc_class :=
| RuntimeError | AttributeError | IndexError | TypeError | UnicodeEncodeError
| HttpResponseError | ServiceRequestError | ClientAuthenticationError
| KeyboardInterrupt | SystemExit.

(** [isinstance(e, Exception)] *)
Definition is_Exception (c : exc_class) : bool :=
  match c with
  | KeyboardInterrupt | SystemExit => false
  | _ => true
  end.

(** A raised exception: its class and [str(e)]. *)
Record exn := Exn { exn_class : exc_class; exn_str : pystr }.

(** The outcome of evaluating an expression or a call. *)
Inductive result (A : Type) :=
| Ok (a : A)
| Raise (e : exn).
Arguments Ok {A} a.
Arguments Raise {A} e.

#[local] Set Warnings "-register-all".

(** The values [render] can be handed: [None], a [bool], an [int], a
    [str], a [bytes] object (its bytes) or a [list]. *)
Inductive pyval :=
| PNone
| PBool (b : bool)
| PInt (z : Z)
| PStr (s : pystr)
| PBytes (b : list N)
| PList (l : list pyval).

(** Truth value of [v] in a condition and in [v or w]. *)
Definition truthy (v : pyval) : bool :=
  match v with
  | PNone => false
  | PBool b => b
  | PInt z => negb (Z.eqb z 0)
  | PStr s => match s with [] => false | _ :: _ => true end
  | PBytes b => match b with [] => false | _ :: _ => true end
  | PList l => match l with [] => false | _ :: _ => true end
  end.

Definition type_name (v : pyval) : pystr :=
  match v with
  | PNone => lit "NoneType"
  | PBool _ => lit "bool"
  | PInt _ => lit "int"
  | PStr _ => lit "str"
  | PBytes _ => lit "bytes"
  | PList _ => lit "list"
  end.

(** [v.replace(old, new)] with [str] arguments: [str] has the method,
    [bytes] has one that refuses [str] arguments, the other values have
    none. *)
Definition py_replace (v : pyval) (old new : pystr) : result pyval :=
  match v with
  | PStr s => Ok (PStr (replace old new s))
  | PBytes _ =>
      Raise (Exn TypeError (lit "a bytes-like object is required, not 'str'"))
  | _ => Raise (Exn AttributeError
                  (lit "'" ++ type_name v ++ lit "' object has no attribute 'replace'"))
  end.

(** [v or w] *)
Definition py_or (v w : pyval) : pyval := if truthy v then v else w.

Definition bind {A B} (r : result A) (k : A -> result B) : result B :=
  match r with
  | Ok a => k a
  | Raise e => Raise e
  end.

(** ** Configuration (lines 15-26) *)

Module Config.

Definition environ := gmap pystr pystr.

(** [os.environ.get(key, default)] *)
Definition environ_get (env : environ) (key default : pystr) : pystr :=
  match env !! key with
  | Some v => v
  | None => default
  end.

Definition DEFAULT_PROJECT_ENDPOINT : pystr :=
  lit "https://companyresearch.services.ai.azure.com/api/projects/companyResearch".
Definition DEFAULT_AGENT_ID : pystr := lit "asst_Wb2ElHzBXdZtjCIOXlwoE8a3".

Record config := { PROJECT_ENDPOINT : pystr; AGENT_ID : pystr }.

(** The module-level statements up to the construction of the client:
    read both values, then refuse to go on when one is empty. *)
Definition load_config (env : environ) : result config :=
  let endpoint := environ_get env (lit "PROJECT_ENDPOINT") DEFAULT_PROJECT_ENDPOINT in
  let agent := environ_get env (lit "AGENT_ID") DEFAULT_AGENT_ID in
  match endpoint with
  | [] => Raise (Exn RuntimeError (lit "PROJECT_ENDPOINT is not set."))
  | _ :: _ =>
      match agent with
      | [] => Raise (Exn RuntimeError (lit "AGENT_ID is not set."))
      | _ :: _ => Ok {| PROJECT_ENDPOINT := endpoint; AGENT_ID := agent |}
      end
  end.

End Config.

(** ** The page (lines 41-167) *)

Module Render.

Definition unlines (ls : list pystr) : pystr :=
  flat_map (fun l => l ++ nl) ls.

(** The template [HTML]: the text between the triple quotes, line by line. *)
Definition HTML : pystr :=
  nl ++ unlines [
    lit "<!DOCTYPE html>";
    lit "<html>";
    lit "<head>";
    lit "  <meta charset=" ++ dq ++ lit "utf-8" ++ dq ++ lit " />";
    lit "  <title>Leadership Change Assistant</title>";
    lit "  <style>";
    lit "    body {";
    lit "      font-family: system-ui, -apple-system, BlinkMacSystemFont, sans-serif;";
    lit "      max-width: 900px;";
    lit "      margin: 40px auto;";
    lit "      padding: 0 16px 40px;";
    lit "      background: #fafafa;";
    lit "    }";
    lit "    h1 {";
    lit "      font-size: 26px;";
    lit "      margin-bottom: 4px;";
    lit "    }";
    lit "    .subtitle {";
    lit "      color: #666;";
    lit "      margin-bottom: 20px;";
    lit "      font-size: 14px;";
    lit "    }";
    lit "    form {";
    lit "      background: #ffffff;";
    lit "      padding: 16px;";
    lit "      border-radius: 12px;";
    lit "      box-shadow: 0 4px 12px rgba(0,0,0,0.03);";
    lit "      margin-bottom: 16px;";
    lit "    }";
    lit "    textarea {";
    lit "      width: 100%;";
    lit "      min-height: 90px;";
    lit "      padding: 10px;";
    lit "      font-family: inherit;";
    lit "      font-size: 14px;";
    lit "      border-radius: 8px;";
    lit "      border: 1px solid #ddd;";
    lit "      box-sizing: border-box;";
    lit "      resize: vertical;";
    lit "    }";
    lit "    button {";
    lit "      margin-top: 10px;";
    lit "      padding: 8px 18px;";
    lit "      cursor: pointer;";
    lit "      border-radius: 999px;";
    lit "      border: none;";
    lit "      font-size: 14px;";
    lit "      background: #111827;";
    lit "      color: #fff;";
    lit "    }";
    lit "    button:hover {";
    lit "      background: #111827ee;";
    lit "    }";
    lit "    .answer {";
    lit "      margin-top: 12px;";
    lit "      padding: 14px;";
    lit "      border-radius: 12px;";
    lit "      background: #f3f4f6;";
    lit "      white-space: pre-wrap;";
    lit "      font-size: 14px;";
    lit "      line-height: 1.5;";
    lit "    }";
    lit "    .label {";
    lit "      font-weight: 600;";
    lit "      margin-bottom: 6px;";
    lit "      display:block;";
    lit "      font-size: 14px;";
    lit "    }";
    lit "    .hint {";
    lit "      font-size: 12px;";
    lit "      color: #888;";
    lit "      margin-top: 4px;";
    lit "    }";
    lit "  </style>";
    lit "</head>";
    lit "<body>";
    lit "  <h1>Leadership Change Assistant</h1>";
    lit "  <div class=" ++ dq ++ lit "subtitle" ++ dq ++ lit ">";
    lit "    Query executive & director leadership changes (e.g. 8-K Item 5.02 events) across tracked companies.";
    lit "    Try: <code>Show me leadership changes for Apple in 2025.</code>";
    lit "  </div>";
    [];
    lit "  <form method=" ++ dq ++ lit "post" ++ dq ++ lit " action=" ++ dq ++ lit "/chat" ++ dq ++ lit ">";
    lit "    <label for=" ++ dq ++ lit "message" ++ dq ++ lit " class=" ++ dq ++ lit "label" ++ dq ++ lit ">Your question</label>";
    lit "    <textarea id=" ++ dq ++ lit "message" ++ dq ++ lit " name=" ++ dq ++ lit "message" ++ dq ++ lit " required>{{message}}</textarea>";
    lit "    <div class=" ++ dq ++ lit "hint" ++ dq ++ lit ">";
    lit "      The agent will search recent filings and summarize relevant leadership moves.";
    lit "    </div>";
    lit "    <button type=" ++ dq ++ lit "submit" ++ dq ++ lit ">Ask</button>";
    lit "  </form>";
    [];
    lit "  {{answer_block}}";
    lit "</body>";
    lit "</html>"
  ].

(** The chain [.replace("&", "&amp;").replace("<", "&lt;").replace(">", "&gt;")],
    which [render] applies to the answer and to the message. *)
Definition escape (s : pystr) : pystr :=
  replace (lit ">") (lit "&gt;")
    (replace (lit "<") (lit "&lt;")
       (replace (lit "&") (lit "&amp;") s)).

Definition py_escape (v : pyval) : result pyval :=
  bind (py_replace v (lit "&") (lit "&amp;")) (fun v1 =>
  bind (py_replace v1 (lit "<") (lit "&lt;")) (fun v2 =>
  py_replace v2 (lit ">") (lit "&gt;"))).

Definition answer_open : pystr :=
  lit "<div class=" ++ dq ++ lit "answer" ++ dq ++ lit ">" ++
  lit "<strong>Answer</strong><br/>".
Definition answer_close : pystr := lit "</div>".

Definition as_str (v : pyval) : pystr :=
  match v with PStr s => s | _ => [] end.

(** A surrogate code point: UTF-8 has no encoding for it. *)
Definition is_surrogate (c : char) : bool := (55296 <=? c) && (c <=? 57343).

(** A string UTF-8 can encode. *)
Definition encodable (s : pystr) : bool :=
  forallb (fun c => negb (is_surrogate c)) s.

(** The first surrogate of [s], with its position counted from [i] and
    the text behind it. *)
Fixpoint first_surrogate (i : nat) (s : pystr) : option (nat * char * pystr) :=
  match s with
  | [] => None
  | c :: s' =>
      if is_surrogate c then Some (i, c, s') else first_surrogate (S i) s'
  end.

(** The number of surrogates [s] begins with. *)
Fixpoint surrogate_run (s : pystr) : nat :=
  match s with
  | [] => 0
  | c :: s' => if is_surrogate c then S (surrogate_run s') else 0
  end.

Definition decimal (n : nat) : pystr :=
  lit (DecimalString.NilZero.string_of_uint (Nat.to_uint n)).

Definition hexadecimal (c : char) : pystr :=
  lit (HexadecimalString.NilZero.string_of_uint (N.to_hex_uint c)).

(** The [UnicodeEncodeError] of the UTF-8 codec for the surrogate [c] at
    position [start], followed by [more] further surrogates. *)
Definition encode_error (start : nat) (c : char) (more : nat) : exn :=
  Exn UnicodeEncodeError
    match more with
    | O =>
        lit "'utf-8' codec can't encode character '\u" ++ hexadecimal c ++
        lit "' in position " ++ decimal start ++
        lit ": surrogates not allowed"
    | S _ =>
        lit "'utf-8' codec can't encode characters in position " ++
        decimal start ++ lit "-" ++ decimal (start + more) ++
        lit ": surrogates not allowed"
    end.

(** [HTMLResponse(content=html)]: the response encodes its content as
    UTF-8 when it is built, which fails on the first surrogate.  What is
    returned stands for the response with that content. *)
Definition HTMLResponse (content : pystr) : result pystr :=
  match first_surrogate 0 content with
  | None => Ok content
  | Some (start, c, rest) => Raise (encode_error start c (surrogate_run rest))
  end.

(** [render(message, answer)]. *)
Definition render (message answer : pyval) : result pystr :=
  bind (if truthy answer
        then bind (py_escape answer) (fun safe_answer =>
             Ok (answer_open ++ as_str safe_answer ++ answer_close))
        else Ok []) (fun answer_block =>
  bind (py_escape (py_or message (PStr []))) (fun safe_message =>
  HTMLResponse
    (replace (lit "{{answer_block}}") answer_block
       (replace (lit "{{message}}") (as_str safe_message) HTML)))).

End Render.

(** ** The parts of the page *)

Module Page.
Import Render.

(** The part of [s] before the first place where [p] starts. *)
Fixpoint before (p s : pystr) : pystr :=
  match s with
  | [] => []
  | c :: s' => if startswith p s then [] else c :: before p s'
  end.

(** The part of [s] after the first occurrence of [p]. *)
Fixpoint after (p s : pystr) : pystr :=
  match s with
  | [] => []
  | _ :: s' => if startswith p s then drop (length p) s else after p s'
  end.

Definition message_slot : pystr := lit "{{message}}".
Definition answer_slot : pystr := lit "{{answer_block}}".

(** The template around its two placeholders. *)
Definition page_head : pystr := before message_slot HTML.
Definition page_mid : pystr := before answer_slot (after message_slot HTML).
Definition page_tail : pystr := after answer_slot (after message_slot HTML).

(** The editable field and the answer container. *)
Definition textarea_open : pystr :=
  lit "<textarea id=" ++ dq ++ lit "message" ++ dq ++
  lit " name=" ++ dq ++ lit "message" ++ dq ++ lit " required>".
Definition textarea_close : pystr := lit "</textarea>".
Definition answer_tag : pystr :=
  lit "<div class=" ++ dq ++ lit "answer" ++ dq ++ lit ">".

(** The answer block for a non-empty answer. *)
Definition answer_block (answer : pystr) : pystr :=
  answer_open ++ escape answer ++ answer_close.

(** The block [render] builds for [answer]. *)
Definition block_for (answer : pystr) : pystr :=
  match answer with
  | [] => []
  | _ :: _ => answer_block answer
  end.

(** What the second substitution makes of the escaped message. *)
Definition field_text (message answer : pystr) : pystr :=
  replace answer_slot (block_for answer) (escape message).

(** The page for the message [m] and the answer [a]. *)
Definition page_for (m a : pystr) : pystr :=
  page_head ++ field_text m a ++ page_mid ++ block_for a ++ page_tail.

(** The class of the exception [.replace] raises on a value that is not a
    string. *)
Definition replace_error (v : pyval) : exc_class :=
  match v with
  | PBytes _ => TypeError
  | _ => AttributeError
  end.

(** A value [render] handles: a string, or anything false. *)
Definition renderable (v : pyval) : Prop :=
  (exists s, v = PStr s) \/ truthy v = false.

(** The string a renderable value stands for. *)
Definition shown (v : pyval) : pystr :=
  if truthy v then as_str v else [].

(** [c not in s] *)
Definition absent (c : char) (s : pystr) : bool :=
  forallb (fun a => negb (a =? c)) s.

(** What an entity holds between its [&] and its [;]. *)
Definition entity_tails : list pystr :=
  [lit "amp"; lit "mp"; lit "p"; lit "lt"; lit "t"; lit "gt"].

(** A pattern that escaping can neither destroy nor create: it has none of
    [&], [<], [>], [;] and is not the beginning of the inside of an
    entity. *)
Definition unescaped (p : pystr) : bool :=
  absent 38 p && absent 60 p && absent 62 p && absent 59 p &&
  forallb (fun t => negb (startswith p t)) entity_tails &&
  match p with [] => false | _ :: _ => true end.

(** The beginnings of a script element and of the tag that ends the field. *)
Definition script_open : pystr := lit "<script".
Definition textarea_end : pystr := lit "</textarea".

(** All of [s] but its last character. *)
Fixpoint init (s : pystr) : pystr :=
  match s with
  | [] => []
  | [_] => []
  | c :: s' => c :: init s'
  end.

End Page.

(** ** The relay (lines 174-232) *)

Module Relay.

(** *** What the SDK hands back *)

Record Agent := { agent_id : pystr }.                 (* [agent.id] *)
Record AgentThread := { thread_id : pystr }.          (* [thread.id] *)

(** [run.status], and [run.last_error] as the f-string renders it. *)
Record ThreadRun := { status : pystr; last_error : pystr }.

(** One text chunk: [chunk.text.value]. *)
Record MessageTextContent := { text_value : pystr }.

(** A listed message.  [text_messages] is [None] where [getattr] finds no
    such attribute. *)
Record ThreadMessage :=
  { role : pystr; text_messages : option (list MessageTextContent) }.

(** An assistant message with the given text chunks, and a user message. *)
Definition assistant (chunks : list pystr) : ThreadMessage :=
  {| role := lit "assistant";
     text_messages := Some (map (fun v => {| text_value := v |}) chunks) |}.

Definition user (text : pystr) : ThreadMessage :=
  {| role := lit "user"; text_messages := Some [{| text_value := text |}] |}.

Inductive ListSortOrder := ASCENDING | DESCENDING.

(** The requests sent to the remote service, in the order they are sent. *)
Inductive call :=
| GetAgent (agent : pystr)
| CreateThread
| CreateMessage (thread role content : pystr)
| CreateAndProcess (thread agent : pystr)
| ListMessages (thread : pystr) (order : ListSortOrder).

(** The shared client [project]: each operation reads and changes the
    state of the remote world and returns a value or raises. *)
Record AIProjectClient (World : Type) := {
  agents_get_agent : pystr -> World -> result Agent * World;
  agents_threads_create : World -> result AgentThread * World;
  agents_messages_create :
    pystr -> pystr -> pystr -> World -> result ThreadMessage * World;
  agents_runs_create_and_process :
    pystr -> pystr -> World -> result ThreadRun * World;
  agents_messages_list :
    pystr -> ListSortOrder -> World -> result (list ThreadMessage) * World
}.
Arguments agents_get_agent {World}.
Arguments agents_threads_create {World}.
Arguments agents_messages_create {World}.
Arguments agents_runs_create_and_process {World}.
Arguments agents_messages_list {World}.

Definition is_create_thread (c : call) : bool :=
  match c with CreateThread => true | _ => false end.

Definition is_post (c : call) : bool :=
  match c with CreateMessage _ _ _ => true | _ => false end.

Definition is_run (c : call) : bool :=
  match c with CreateAndProcess _ _ => true | _ => false end.

(** The thread a request is addressed to. *)
Definition thread_of (c : call) : option pystr :=
  match c with
  | GetAgent _ | CreateThread => None
  | CreateMessage t _ _ | CreateAndProcess t _ | ListMessages t _ => Some t
  end.

(** [xs[-1]] *)
Fixpoint index_last {A} (xs : list A) : result A :=
  match xs with
  | [] => Raise (Exn IndexError (lit "list index out of range"))
  | [x] => Ok x
  | _ :: xs' => index_last xs'
  end.

(** The condition of line 206:
    [msg.role == "assistant" and getattr(msg, "text_messages", None)]. *)
Definition has_reply (msg : ThreadMessage) : bool :=
  bool_decide (role msg = lit "assistant") &&
  match text_messages msg with
  | Some (_ :: _) => true
  | _ => false
  end.

(** [msg.text_messages[-1].text.value] *)
Definition latest_chunk (msg : ThreadMessage) : result pystr :=
  match text_messages msg with
  | None =>
      Raise (Exn AttributeError
               (lit "'ThreadMessage' object has no attribute 'text_messages'"))
  | Some chunks => bind (index_last chunks) (fun c => Ok (text_value c))
  end.

(** The loop of lines 204-208, [answers] being the list built so far. *)
Fixpoint collect (messages : list ThreadMessage) (answers : list pystr)
  : result (list pystr) :=
  match messages with
  | [] => Ok answers
  | msg :: rest =>
      if has_reply msg
      then bind (latest_chunk msg) (fun v => collect rest (answers ++ [v]))
      else collect rest answers
  end.

Definition NO_REPLY : pystr := lit "(No assistant reply found.)".

(** What a route answers: a page with status 200, or the 422 of the
    framework for a form without the required field. *)
Inductive response :=
| HTML200 (body : pystr)
| Unprocessable422.

Section WithClient.

Context {World : Type}.
Variable project : AIProjectClient World.
Variable AGENT_ID : pystr.

(** The state threaded through a request: the remote world and the
    requests sent so far. *)
Definition state : Type := World * list call.

Definition M (A : Type) : Type := state -> result A * state.

Definition ret {A} (a : A) : M A := fun s => (Ok a, s).

Definition lift {A} (r : result A) : M A := fun s => (r, s).

Definition mbind {A B} (m : M A) (k : A -> M B) : M B :=
  fun s =>
    match m s with
    | (Ok a, s') => k a s'
    | (Raise e, s') => (Raise e, s')
    end.

(** Sending request [c], answered by [op]. *)
Definition remote {A} (c : call) (op : World -> result A * World) : M A :=
  fun s =>
    let (r, w') := op (fst s) in (r, (w', snd s ++ [c])).

(** [try: m except Exception as e: h e]: other exceptions pass through. *)
Definition try_except {A} (m : M A) (h : exn -> M A) : M A :=
  fun s =>
    match m s with
    | (Ok a, s') => (Ok a, s')
    | (Raise e, s') =>
        if is_Exception (exn_class e) then h e s' else (Raise e, s')
    end.

Notation "'perform' x <~ m ;; k" := (mbind m (fun x => k))
  (at level 10, x pattern, m at level 99, k at level 200).

Definition get_agent (id : pystr) : M Agent :=
  remote (GetAgent id) (agents_get_agent project id).
Definition threads_create : M AgentThread :=
  remote CreateThread (agents_threads_create project).
Definition messages_create (thread role content : pystr) : M ThreadMessage :=
  remote (CreateMessage thread role content)
         (agents_messages_create project thread role content).
Definition create_and_process (thread agent : pystr) : M ThreadRun :=
  remote (CreateAndProcess thread agent)
         (agents_runs_create_and_process project thread agent).
Definition messages_list (thread : pystr) (order : ListSortOrder)
  : M (list ThreadMessage) :=
  remote (ListMessages thread order) (agents_messages_list project thread order).

(** Steps 5 and 6, once the run has not failed. *)
Definition collect_replies (thread : AgentThread) : M pystr :=
  perform messages <~ messages_list (thread_id thread) ASCENDING ;;
  perform answers <~ lift (collect messages []) ;;
  match answers with
  | [] => ret NO_REPLY
  | _ :: _ => ret (strip (join (nl ++ nl) answers))
  end.

(** The body of the [try] of [call_agent]. *)
Definition call_agent_try (user_message : pystr) : M pystr :=
  perform agent <~ get_agent AGENT_ID ;;
  perform thread <~ threads_create ;;
  perform _ <~ messages_create (thread_id thread) (lit "user") user_message ;;
  perform run <~ create_and_process (thread_id thread) (agent_id agent) ;;
  if bool_decide (status run = lit "failed")
  then ret (lit "Run failed: " ++ last_error run)
  else collect_replies thread.

Definition call_agent (user_message : pystr) : M pystr :=
  try_except (call_agent_try user_message)
             (fun e => ret (lit "Error calling agent: " ++ exn_str e)).

(** The two routes.  [GET /] renders the empty page.  [POST /chat] takes
    the form field [message], declared [Form(...)]: when the field is
    missing or empty the framework answers 422 and the handler is not
    called. *)
Definition index : M response :=
  perform html <~ lift (Render.render (PStr []) (PStr [])) ;;
  ret (HTML200 html).

Definition chat (message : option pystr) : M response :=
  match message with
  | None | Some [] => ret Unprocessable422
  | Some (c :: m) =>
      perform answer <~ call_agent (c :: m) ;;
      perform html <~ lift (Render.render (PStr (c :: m)) (PStr answer)) ;;
      ret (HTML200 html)
  end.

(** The requests one run of [m] sends, started in world [w]. *)
Definition sent {A} (m : M A) (w : World) : list call := snd (snd (m (w, []))).

(** What one run of [m] returns, started in world [w]. *)
Definition returned {A} (m : M A) (w : World) : result A := fst (m (w, [])).

(** The world one run of [m] leaves behind. *)
Definition world_after {A} (m : M A) (w : World) : World := fst (snd (m (w, []))).

(** Two requests served one after the other. *)
Definition twice {A} (m : M A) : M A := perform _ <~ m ;; m.

(** The service answers the first four requests of a relay started in
    world [w]: it knows the agent, opens [thread], accepts the message and
    ends the run as [run], leaving world [w']. *)
Definition answers_run (user_message : pystr) (w : World) (agent : Agent)
    (thread : AgentThread) (run : ThreadRun) (w' : World) : Prop :=
  exists w1 w2 w3 posted,
    agents_get_agent project AGENT_ID w = (Ok agent, w1) /\
    agents_threads_create project w1 = (Ok thread, w2) /\
    agents_messages_create project (thread_id thread) (lit "user")
      user_message w2 = (Ok posted, w3) /\
    agents_runs_create_and_process project (thread_id thread)
      (agent_id agent) w3 = (Ok run, w').

(** The four requests of such a relay. *)
Definition requests_of_run (user_message : pystr) (agent : Agent)
    (thread : AgentThread) : list call :=
  [ GetAgent AGENT_ID;
    CreateThread;
    CreateMessage (thread_id thread) (lit "user") user_message;
    CreateAndProcess (thread_id thread) (agent_id agent) ].

(** Some request of a relay started in world [w] is answered by raising
    [e]; the requests before it were answered. *)
Inductive raises_at (user_message : pystr) (w : World) (e : exn) : Prop :=
| raises_get_agent w1 :
    agents_get_agent project AGENT_ID w = (Raise e, w1) ->
    raises_at user_message w e
| raises_threads_create agent w1 w2 :
    agents_get_agent project AGENT_ID w = (Ok agent, w1) ->
    agents_threads_create project w1 = (Raise e, w2) ->
    raises_at user_message w e
| raises_messages_create agent thread w1 w2 w3 :
    agents_get_agent project AGENT_ID w = (Ok agent, w1) ->
    agents_threads_create project w1 = (Ok thread, w2) ->
    agents_messages_create project (thread_id thread) (lit "user")
      user_message w2 = (Raise e, w3) ->
    raises_at user_message w e
| raises_create_and_process agent thread posted w1 w2 w3 w4 :
    agents_get_agent project AGENT_ID w = (Ok agent, w1) ->
    agents_threads_create project w1 = (Ok thread, w2) ->
    agents_messages_create project (thread_id thread) (lit "user")
      user_message w2 = (Ok posted, w3) ->
    agents_runs_create_and_process project (thread_id thread)
      (agent_id agent) w3 = (Raise e, w4) ->
    raises_at user_message w e
| raises_messages_list agent thread run w4 w5 :
    answers_run user_message w agent thread run w4 ->
    status run <> lit "failed" ->
    agents_messages_list project (thread_id thread) ASCENDING w4 =
      (Raise e, w5) ->
    raises_at user_message w e.

End WithClient.

(** The kinds of request, and the order in which a relay may send them. *)
Inductive request_kind :=
| KGetAgent | KCreateThread | KCreateMessage | KCreateAndProcess | KListMessages.

Definition kind_of (c : call) : request_kind :=
  match c with
  | GetAgent _ => KGetAgent
  | CreateThread => KCreateThread
  | CreateMessage _ _ _ => KCreateMessage
  | CreateAndProcess _ _ => KCreateAndProcess
  | ListMessages _ _ => KListMessages
  end.

Definition protocol : list request_kind :=
  [KGetAgent; KCreateThread; KCreateMessage; KCreateAndProcess; KListMessages].

(** A string of white space only. *)
Definition blank (s : pystr) : bool := forallb is_space s.

(** A string that does not begin, or end, with white space. *)
Definition starts_clean (s : pystr) : bool :=
  match s with
  | [] => false
  | c :: _ => negb (is_space c)
  end.

Definition ends_clean (s : pystr) : bool := starts_clean (rev s).

End Relay.

(** ** Reference definitions, in the words of the specification *)

Module Spec.

(** Entity substitution, one character at a time. *)
Definition esc_char (c : char) : pystr :=
  if c =? 38 then lit "&amp;"
  else if c =? 60 then lit "&lt;"
  else if c =? 62 then lit "&gt;"
  else [c].

(** The last text chunk of every assistant message that carries text, in
    the order of the listing. *)
Definition last_chunk (chunks : list Relay.MessageTextContent) : option pystr :=
  match rev chunks with
  | [] => None
  | c :: _ => Some (Relay.text_value c)
  end.

Definition selected_chunk (msg : Relay.ThreadMessage) : option pystr :=
  if bool_decide (Relay.role msg = lit "assistant")
  then match Relay.text_messages msg with
       | Some chunks => last_chunk chunks
       | None => None
       end
  else None.

Definition selected (messages : list Relay.ThreadMessage) : list pystr :=
  omap selected_chunk messages.

(** The chunks one after the other, with a blank line before each but the
    first. *)
Definition with_blank_lines (chunks : list pystr) : pystr :=
  match chunks with
  | [] => []
  | x :: rest => x ++ flat_map (fun y => [10; 10] ++ y) rest
  end.

(** [r] is [s] without its leading and trailing white space: [s] is [r]
    between two stretches of white space, and [r] is empty or has a
    character that is not white space at either end. *)
Definition trimmed_of (s r : pystr) : Prop :=
  exists ws1 ws2,
    s = ws1 ++ r ++ ws2 /\
    Relay.blank ws1 = true /\ Relay.blank ws2 = true /\
    (r = [] \/ (Relay.starts_clean r = true /\ Relay.ends_clean r = true)).

End Spec.

(** ** A scripted remote service, for concrete runs *)

Module Demo.
Import Relay.

(** What the service answers to each kind of request. *)
Record script := {
  on_get_agent : result Agent;
  on_threads_create : option exn;
  on_messages_create : option exn;
  on_run : result ThreadRun;
  on_list : result (list ThreadMessage)
}.

(** The world is the number of threads created so far; a new thread is
    named after it. *)
Definition thread_name (n : nat) : pystr := lit "thread_" ++ [48 + N.of_nat n].

Definition scripted (s : script) : AIProjectClient nat := {|
  agents_get_agent := fun _ w => (on_get_agent s, w);
  agents_threads_create := fun w =>
    match on_threads_create s with
    | None => (Ok {| thread_id := thread_name w |}, S w)
    | Some e => (Raise e, w)
    end;
  agents_messages_create := fun _ r c w =>
    match on_messages_create s with
    | None => (Ok {| role := r; text_messages := Some [{| text_value := c |}] |}, w)
    | Some e => (Raise e, w)
    end;
  agents_runs_create_and_process := fun _ _ w => (on_run s, w);
  agents_messages_list := fun _ _ w => (on_list s, w)
|}.

Definition AID : pystr := lit "asst_1".
Definition the_agent : Agent := {| agent_id := AID |}.

(** The message of the examples, and the first thread the service opens. *)
Definition hello : pystr := lit "hello".
Definition thread0 : AgentThread := {| thread_id := thread_name 0 |}.

(** A service that answers every request, finishing the run with [st] and
    listing [msgs]. *)
Definition answering (st : pystr) (err : pystr) (msgs : list ThreadMessage) : script := {|
  on_get_agent := Ok the_agent;
  on_threads_create := None;
  on_messages_create := None;
  on_run := Ok {| status := st; last_error := err |};
  on_list := Ok msgs
|}.

(** A service whose agent lookup raises [e]. *)
Definition unreachable (e : exn) : script := {|
  on_get_agent := Raise e;
  on_threads_create := None;
  on_messages_create := None;
  on_run := Ok {| status := lit "completed"; last_error := lit "None" |};
  on_list := Ok []
|}.

End Demo.

(** * Properties *)

(** ** Strings *)

Section StringFacts.

Lemma Ok_inj {A} (x y : A) : Ok x = Ok y -> x = y.
Proof. intros [= H]. exact H. Qed.

Lemma startswith_app (p s : pystr) : startswith p (p ++ s) = true.
Proof.
  induction p as [|a p IH]; simpl; [reflexivity|].
  rewrite N.eqb_refl. exact IH.
Qed.

(** Dropping the rest of a match is the same as restarting after it. *)
Lemma replace_from_skip (old new : pystr) (k : nat) (s : pystr) :
  replace_from old new k s = replace_from old new 0 (drop k s).
Proof.
  revert k. induction s as [|c s IH]; intros k.
  - destruct k; reflexivity.
  - destruct k as [|k]; [reflexivity|]. simpl. apply IH.
Qed.

Lemma replace_nomatch (old new : pystr) (c : char) (s : pystr) :
  old <> [] -> startswith old (c :: s) = false ->
  replace old new (c :: s) = c :: replace old new s.
Proof.
  intros Hold H. destruct old as [|a old]; [congruence|].
  unfold replace. cbn [replace_from]. rewrite H. reflexivity.
Qed.

Lemma replace_match (old new s : pystr) :
  old <> [] -> replace old new (old ++ s) = new ++ replace old new s.
Proof.
  intros Hold. destruct old as [|a old]; [congruence|].
  unfold replace. change ((a :: old) ++ s) with (a :: (old ++ s)).
  cbn [replace_from].
  change (a :: old ++ s) with ((a :: old) ++ s). rewrite startswith_app.
  f_equal. rewrite replace_from_skip. f_equal.
  simpl. rewrite Nat.sub_0_r. rewrite drop_app_length. reflexivity.
Qed.

(** Replacing a one-character pattern maps every character on its own. *)
Lemma replace_single (c : char) (new s : pystr) :
  replace [c] new s = flat_map (fun x => if x =? c then new else [x]) s.
Proof.
  unfold replace. induction s as [|a s IH]; [reflexivity|].
  cbn [replace_from startswith flat_map length]. rewrite N.eqb_sym.
  destruct (a =? c); simpl; rewrite IH; reflexivity.
Qed.

Lemma lstrip_clean (s : pystr) : Relay.starts_clean s = true -> lstrip s = s.
Proof.
  destruct s as [|c s]; [discriminate|]. simpl. intros H.
  destruct (is_space c); [discriminate|reflexivity].
Qed.

(** Stripping leaves a string alone that neither begins nor ends with
    white space. *)
Lemma strip_clean (s : pystr) :
  Relay.starts_clean s = true -> Relay.ends_clean s = true -> strip s = s.
Proof.
  intros Hs He. unfold strip, rstrip. rewrite (lstrip_clean s Hs).
  rewrite (lstrip_clean (rev s) He). apply rev_involutive.
Qed.

Lemma starts_clean_app (b r : pystr) :
  Relay.starts_clean b = true -> Relay.starts_clean (b ++ r) = true.
Proof. destruct b; [discriminate|]. intros H. exact H. Qed.

Lemma ends_clean_app (r c : pystr) :
  Relay.ends_clean c = true -> Relay.ends_clean (r ++ c) = true.
Proof.
  unfold Relay.ends_clean. rewrite rev_app_distr. apply starts_clean_app.
Qed.

End StringFacts.

(** ** Escaping *)

Section Escaping.
Import Render Spec.

(** The three chained replacements substitute every character of the
    input exactly once. *)
Lemma escape_flat_map (s : pystr) : escape s = flat_map esc_char s.
Proof.
  unfold escape.
  change (lit ">") with [62]; change (lit "<") with [60];
    change (lit "&") with [38].
  rewrite !replace_single. unfold pystr, char in *.
  induction s as [|c s IH]; [reflexivity|].
  change (c :: s) with ([c] ++ s). rewrite !flat_map_app.
  rewrite <- IH. f_equal.
  unfold esc_char. simpl.
  destruct (N.eqb_spec c 38) as [->|H38]; [reflexivity|].
  destruct (N.eqb_spec c 60) as [->|H60]; [reflexivity|].
  destruct (N.eqb_spec c 62) as [->|H62]; [reflexivity|].
  simpl. destruct (N.eqb_spec c 60); [contradiction|].
  simpl. destruct (N.eqb_spec c 62); [contradiction|].
  reflexivity.
Qed.

Lemma escape_app (x y : pystr) : escape (x ++ y) = escape x ++ escape y.
Proof. rewrite !escape_flat_map. apply flat_map_app. Qed.

Lemma py_escape_str (s : pystr) : py_escape (PStr s) = Ok (PStr (escape s)).
Proof. reflexivity. Qed.

End Escaping.

(** ** Substitution into the template *)

Section Substitution.
Import Render Page.

(** A pattern that starts in [x ++ c :: s] and does not contain [c] lies
    within [x]. *)
Lemma startswith_barrier (p x : pystr) (c : char) (s : pystr) :
  absent c p = true -> startswith p (x ++ c :: s) = true ->
  startswith p x = true.
Proof.
  revert x. induction p as [|a p IH]; intros x Habs H; [reflexivity|].
  simpl in Habs. apply andb_prop in Habs as [Hac Habs].
  destruct x as [|b x]; simpl in *.
  - destruct (N.eqb_spec a c); [discriminate|discriminate].
  - destruct (a =? b); [|discriminate]. apply IH; assumption.
Qed.

Lemma occurs_cons_false (p : pystr) (a : char) (x : pystr) :
  occurs p (a :: x) = false ->
  startswith p (a :: x) = false /\ occurs p x = false.
Proof. simpl. intros H. apply orb_false_elim in H. exact H. Qed.

(** No occurrence of the pattern can start in [x] or at [c]: the
    replacement leaves [x ++ [c]] as it is and goes on behind it. *)
Lemma replace_barrier (p new x : pystr) (c : char) (s : pystr) :
  p <> [] -> absent c p = true -> occurs p x = false ->
  replace p new (x ++ c :: s) = x ++ c :: replace p new s.
Proof.
  intros Hp Habs. induction x as [|a x IH]; intros Hocc.
  - simpl. apply replace_nomatch; [exact Hp|].
    destruct (startswith p (c :: s)) eqn:E; [|reflexivity].
    apply (startswith_barrier p [] c s Habs) in E.
    destruct p; [congruence|discriminate].
  - apply occurs_cons_false in Hocc as [Hs Hocc].
    change ((a :: x) ++ c :: s) with (a :: (x ++ c :: s)).
    rewrite replace_nomatch; [|exact Hp|].
    + rewrite IH by exact Hocc. reflexivity.
    + destruct (startswith p (a :: x ++ c :: s)) eqn:E; [|reflexivity].
      apply (startswith_barrier p (a :: x) c s Habs) in E. congruence.
Qed.

Lemma replace_absent (p new s : pystr) :
  p <> [] -> occurs p s = false -> replace p new s = s.
Proof.
  intros Hp. induction s as [|a s IH]; intros Hocc.
  - destruct p; [congruence|reflexivity].
  - apply occurs_cons_false in Hocc as [Hs Hocc].
    rewrite replace_nomatch by assumption. rewrite IH by assumption.
    reflexivity.
Qed.

(** The template is its three parts around the two placeholders. *)
Lemma HTML_parts :
  HTML = page_head ++ message_slot ++ page_mid ++ answer_slot ++ page_tail.
Proof. vm_compute. reflexivity. Qed.

(** The message placeholder sits in the editable field, the answer
    placeholder behind the form. *)
Lemma page_head_field : page_head = init page_head ++ lit ">" /\
  textarea_open `suffix_of` page_head.
Proof.
  split; [vm_compute; reflexivity|].
  exists (take (length page_head - length textarea_open) page_head).
  vm_compute. reflexivity.
Qed.

Lemma page_mid_field : page_mid = lit "<" ++ drop 1 (init page_mid) ++ lit " " /\
  textarea_close `prefix_of` page_mid.
Proof.
  split; [vm_compute; reflexivity|].
  exists (drop (length textarea_close) page_mid). vm_compute. reflexivity.
Qed.

(** The first substitution puts [safe_message] in the field. *)
Lemma replace_message_slot (safe_message : pystr) :
  replace message_slot safe_message HTML =
  page_head ++ safe_message ++ page_mid ++ answer_slot ++ page_tail.
Proof.
  rewrite HTML_parts.
  destruct page_head_field as [E _]. rewrite E.
  rewrite <- !app_assoc. change (lit ">" ++ ?r) with (62 :: r).
  rewrite replace_barrier;
    [|discriminate|vm_compute; reflexivity|vm_compute; reflexivity].
  rewrite replace_match by discriminate.
  rewrite replace_absent; [reflexivity|discriminate|vm_compute; reflexivity].
Qed.

(** The second substitution, when the escaped message does not itself
    contain the answer placeholder. *)
Lemma replace_answer_slot (safe_message block : pystr) :
  occurs answer_slot safe_message = false ->
  replace answer_slot block
    (page_head ++ safe_message ++ page_mid ++ answer_slot ++ page_tail) =
  page_head ++ safe_message ++ page_mid ++ block ++ page_tail.
Proof.
  intros Hm.
  destruct page_head_field as [E _]. rewrite E.
  destruct page_mid_field as [F _]. rewrite F.
  rewrite <- !app_assoc.
  change (lit ">" ++ ?r) with (62 :: r).
  change (lit "<" ++ ?r) with (60 :: r).
  change (lit " " ++ ?r) with (32 :: r).
  rewrite replace_barrier;
    [|discriminate|vm_compute; reflexivity|vm_compute; reflexivity].
  rewrite replace_barrier;
    [|discriminate|vm_compute; reflexivity|exact Hm].
  rewrite replace_barrier;
    [|discriminate|vm_compute; reflexivity|vm_compute; reflexivity].
  rewrite replace_match by discriminate.
  rewrite replace_absent; [reflexivity|discriminate|vm_compute; reflexivity].
Qed.

End Substitution.

(** ** Occurrences of a pattern in escaped text and in the page *)

Section Occurrences.
Import Render Page Spec.

Lemma escape_cons (c : char) (s : pystr) : escape (c :: s) = esc_char c ++ escape s.
Proof. rewrite !escape_flat_map. reflexivity. Qed.

Lemma esc_char_cases (c : char) :
  (c = 38 /\ esc_char c = [38; 97; 109; 112; 59]) \/
  (c = 60 /\ esc_char c = [38; 108; 116; 59]) \/
  (c = 62 /\ esc_char c = [38; 103; 116; 59]) \/
  (c <> 38 /\ c <> 60 /\ c <> 62 /\ esc_char c = [c]).
Proof.
  unfold esc_char.
  destruct (N.eqb_spec c 38); [left; split; [assumption|reflexivity]|].
  destruct (N.eqb_spec c 60); [right; left; split; [assumption|reflexivity]|].
  destruct (N.eqb_spec c 62);
    [right; right; left; split; [assumption|reflexivity]|].
  right; right; right. auto.
Qed.

Lemma startswith_head_absent (p : pystr) (c : char) (s : pystr) :
  p <> [] -> absent c p = true -> startswith p (c :: s) = false.
Proof.
  intros Hp Habs. destruct p as [|a p]; [congruence|].
  simpl in *. apply andb_prop in Habs as [Ha _].
  destruct (a =? c); [discriminate|reflexivity].
Qed.

Lemma startswith_app_l (p x r : pystr) :
  startswith p x = true -> startswith p (x ++ r) = true.
Proof.
  revert x. induction p as [|a p IH]; intros x H; [reflexivity|].
  destruct x as [|b x]; [discriminate|]. simpl in *.
  destruct (a =? b); [apply IH; exact H|discriminate].
Qed.

(** Escaped text has no [<]. *)
Lemma escape_no_lt (s : pystr) : absent 60 (escape s) = true.
Proof.
  induction s as [|c s IH]; [reflexivity|].
  rewrite escape_cons. unfold absent in *. rewrite forallb_app.
  apply andb_true_intro. split; [|exact IH].
  destruct (esc_char_cases c)
    as [[_ ->]|[[_ ->]|[[_ ->]|(_ & H60 & _ & ->)]]]; try reflexivity.
  simpl. destruct (N.eqb_spec c 60); [contradiction|reflexivity].
Qed.

Lemma absent_head (c a : char) (p : pystr) :
  absent c (a :: p) = true -> (a =? c) = false /\ absent c p = true.
Proof.
  simpl. intros H. apply andb_prop in H as [H1 H2].
  split; [|exact H2]. destruct (a =? c); [discriminate|reflexivity].
Qed.

(** A pattern without [&], [<], [>] that starts the escaped text starts
    the text. *)
Lemma startswith_escape (p m : pystr) :
  absent 38 p = true -> absent 60 p = true -> absent 62 p = true ->
  startswith p (escape m) = true -> startswith p m = true.
Proof.
  revert m. induction p as [|a p IH]; intros m H38 H60 H62 H; [reflexivity|].
  apply absent_head in H38 as [A38 H38].
  destruct m as [|c m]; [discriminate|].
  rewrite escape_cons in H.
  destruct (esc_char_cases c)
    as [[_ E]|[[_ E]|[[_ E]|(_ & _ & _ & E)]]]; rewrite E in H;
    cbn [app startswith] in H; try (rewrite A38 in H; discriminate).
  cbn [startswith]. destruct (a =? c); [|discriminate].
  apply absent_head in H60 as [_ H60]. apply absent_head in H62 as [_ H62].
  apply IH; assumption.
Qed.

Lemma unescaped_parts (p : pystr) :
  unescaped p = true ->
  p <> [] /\ absent 38 p = true /\ absent 60 p = true /\
  absent 62 p = true /\ absent 59 p = true /\
  forall t, In t entity_tails -> startswith p t = false.
Proof.
  unfold unescaped. intros H.
  repeat (apply andb_prop in H as [H ?]).
  split; [destruct p; [discriminate|discriminate]|].
  repeat (split; [assumption|]).
  intros t Ht. rewrite forallb_forall in H1. apply H1 in Ht.
  destruct (startswith p t); [discriminate|reflexivity].
Qed.

(** Inside an entity and at its [;] no unescaped pattern starts. *)
Lemma startswith_entity_tail (p t y : pystr) :
  unescaped p = true -> In t ([] :: entity_tails) ->
  startswith p (t ++ 59 :: y) = false.
Proof.
  intros H Hin. destruct (unescaped_parts p H) as (Hp & _ & _ & _ & H59 & Ht).
  destruct (startswith p (t ++ 59 :: y)) eqn:E; [|reflexivity].
  apply startswith_barrier in E; [|assumption].
  destruct Hin as [<-|Hin].
  - destruct p; [congruence|discriminate].
  - rewrite (Ht t Hin) in E. discriminate.
Qed.

Lemma occurs_entity (p y : pystr) :
  unescaped p = true ->
  occurs p ([38; 97; 109; 112; 59] ++ y) = occurs p y /\
  occurs p ([38; 108; 116; 59] ++ y) = occurs p y /\
  occurs p ([38; 103; 116; 59] ++ y) = occurs p y.
Proof.
  intros H. destruct (unescaped_parts p H) as (Hp & H38 & _).
  assert (T : forall t, In t ([] :: entity_tails) ->
                        startswith p (t ++ 59 :: y) = false).
  { intros t Ht. apply startswith_entity_tail; assumption. }
  assert (T0 : startswith p (59 :: y) = false)
    by (apply (T []); simpl; auto 10).
  assert (T1 : startswith p (97 :: 109 :: 112 :: 59 :: y) = false)
    by (apply (T (lit "amp")); simpl; auto 10).
  assert (T2 : startswith p (109 :: 112 :: 59 :: y) = false)
    by (apply (T (lit "mp")); simpl; auto 10).
  assert (T3 : startswith p (112 :: 59 :: y) = false)
    by (apply (T (lit "p")); simpl; auto 10).
  assert (T4 : startswith p (108 :: 116 :: 59 :: y) = false)
    by (apply (T (lit "lt")); simpl; auto 10).
  assert (T5 : startswith p (116 :: 59 :: y) = false)
    by (apply (T (lit "t")); simpl; auto 10).
  assert (T6 : startswith p (103 :: 116 :: 59 :: y) = false)
    by (apply (T (lit "gt")); simpl; auto 10).
  assert (A : forall s, startswith p (38 :: s) = false)
    by (intros s; apply startswith_head_absent; assumption).
  cbn [app occurs]. rewrite !A, T0, T1, T2, T3, T4, T5, T6.
  repeat split; reflexivity.
Qed.

(** Escaping does not bring an unescaped pattern into a text without it. *)
Lemma occurs_escape (p m : pystr) :
  unescaped p = true -> occurs p m = false -> occurs p (escape m) = false.
Proof.
  intros H.
  destruct (unescaped_parts p H) as (Hp & H38 & H60 & H62 & _).
  induction m as [|c m IH]; intros Hocc.
  - destruct p; [congruence|reflexivity].
  - apply occurs_cons_false in Hocc as [Hs Hocc]. specialize (IH Hocc).
    destruct (occurs_entity p (escape m) H) as (O1 & O2 & O3).
    rewrite escape_cons.
    destruct (esc_char_cases c)
      as [[_ E]|[[_ E]|[[_ E]|(_ & _ & _ & E)]]]; rewrite E.
    + exact (eq_trans O1 IH).
    + exact (eq_trans O2 IH).
    + exact (eq_trans O3 IH).
    + cbn [app occurs]. rewrite IH, orb_false_r.
      destruct (startswith p (c :: escape m)) eqn:E1; [|reflexivity].
      rewrite <- Hs. symmetry. apply startswith_escape; try assumption.
      rewrite escape_cons, E. exact E1.
Qed.

(** No pattern starts where its first character is missing. *)
Lemma count_at_skip (a : char) (p x y : pystr) :
  absent a x = true -> count_at (a :: p) (x ++ y) = count_at (a :: p) y.
Proof.
  induction x as [|b x IH]; intros H; [reflexivity|].
  simpl in H. apply andb_prop in H as [Hb H].
  cbn [app count_at startswith]. rewrite N.eqb_sym.
  destruct (b =? a); [discriminate|]. rewrite IH by exact H. reflexivity.
Qed.

(** A character the pattern lacks separates the occurrences before it
    from those behind. *)
Lemma count_at_barrier (p x : pystr) (c : char) (s : pystr) :
  p <> [] -> absent c p = true ->
  count_at p (x ++ c :: s) = (count_at p x + count_at p (c :: s))%nat.
Proof.
  intros Hp Habs. remember (count_at p (c :: s)) as k eqn:Hk.
  induction x as [|a x IH].
  - cbn [app]. rewrite <- Hk. destruct p; [congruence|reflexivity].
  - change ((a :: x) ++ c :: s) with (a :: (x ++ c :: s)).
    cbn [count_at]. rewrite IH.
    assert (E : startswith p (a :: x ++ c :: s) = startswith p (a :: x)).
    { destruct (startswith p (a :: x)) eqn:E1.
      - apply (startswith_app_l p (a :: x) (c :: s) E1).
      - destruct (startswith p (a :: x ++ c :: s)) eqn:E2; [|reflexivity].
        apply (startswith_barrier p (a :: x) c s Habs) in E2. congruence. }
    rewrite E. destruct (startswith p (a :: x)); lia.
Qed.

(** A part [x1 ++ c :: x2] of the page whose [x2] has no first character
    of the pattern, [c] being neither in the pattern: only the
    occurrences within [x1] count. *)
Lemma count_at_part (a : char) (p x1 : pystr) (c : char) (x2 y : pystr) :
  absent c (a :: p) = true -> absent a (c :: x2) = true ->
  count_at (a :: p) ((x1 ++ c :: x2) ++ y) =
  (count_at (a :: p) x1 + count_at (a :: p) y)%nat.
Proof.
  intros Hc Ha. rewrite <- app_assoc.
  change ((c :: x2) ++ y) with (c :: (x2 ++ y)).
  rewrite count_at_barrier by (discriminate || exact Hc).
  change (c :: (x2 ++ y)) with ((c :: x2) ++ y).
  rewrite count_at_skip by exact Ha. reflexivity.
Qed.

Lemma page_head_part :
  page_head =
  (before textarea_open page_head ++ lit "<") ++ 116 :: drop 2 textarea_open.
Proof. vm_compute. reflexivity. Qed.

Lemma page_mid_part :
  page_mid = init (init (init page_mid)) ++ 10 :: lit "  ".
Proof. vm_compute. reflexivity. Qed.

Lemma answer_open_part :
  answer_open = (answer_tag ++ lit "<strong>Answer</strong><") ++ 98 :: lit "r/>".
Proof. vm_compute. reflexivity. Qed.

(** The answer container occurs once in a page with an answer and not at
    all in one without. *)
Lemma count_answer_tag (m a : pystr) :
  count_at answer_tag
    (page_head ++ escape m ++ page_mid ++ block_for a ++ page_tail) =
  match a with [] => 0%nat | _ :: _ => 1%nat end.
Proof.
  change answer_tag with (60 :: drop 1 answer_tag).
  rewrite page_head_part, count_at_part by (vm_compute; reflexivity).
  rewrite (count_at_skip 60 _ (escape m)) by apply escape_no_lt.
  rewrite page_mid_part, count_at_part by (vm_compute; reflexivity).
  destruct a as [|c a]; [vm_compute; reflexivity|].
  cbn [block_for]. unfold answer_block.
  rewrite <- (app_assoc answer_open), answer_open_part.
  rewrite count_at_part by (vm_compute; reflexivity).
  rewrite <- (app_assoc (escape (c :: a))).
  rewrite (count_at_skip 60 _ (escape (c :: a))) by apply escape_no_lt.
  vm_compute. reflexivity.
Qed.

End Occurrences.

(** ** Replacement in general *)

Section Replacing.
Import Render Page Spec.

Lemma startswith_drop (p s : pystr) :
  startswith p s = true -> s = p ++ drop (length p) s.
Proof.
  revert s. induction p as [|a p IH]; intros s H; simpl in *.
  - reflexivity.
  - destruct s as [|b s]; [discriminate|].
    destruct (N.eqb_spec a b) as [->|]; [|discriminate].
    simpl. f_equal. apply IH. exact H.
Qed.

(** How [replace] goes through a string: a character that starts no
    occurrence is kept, an occurrence becomes [new]. *)
Lemma replace_scan (p new : pystr) (P : pystr -> pystr -> Prop) :
  p <> [] ->
  P [] [] ->
  (forall c s r, startswith p (c :: s) = false -> P s r -> P (c :: s) (c :: r)) ->
  (forall s r, P s r -> P (p ++ s) (new ++ r)) ->
  forall s, P s (replace p new s).
Proof.
  intros Hp Hnil Hkeep Hsub s.
  assert (H : forall n s, (length s <= n)%nat -> P s (replace p new s)).
  { clear s. induction n as [|n IH]; intros s Hlen.
    - destruct s; [|simpl in Hlen; lia].
      destruct p; [congruence|exact Hnil].
    - destruct s as [|c s]; [destruct p; [congruence|exact Hnil]|].
      destruct (startswith p (c :: s)) eqn:E.
      + rewrite (startswith_drop _ _ E), replace_match by exact Hp.
        apply Hsub, IH.
        rewrite length_drop. simpl in Hlen. destruct p; [congruence|].
        simpl. lia.
      + rewrite replace_nomatch by assumption.
        apply Hkeep; [exact E|]. apply IH. simpl in Hlen. lia. }
  apply (H (length s)). lia.
Qed.

(** A character the pattern lacks cuts the replacement in two. *)
Lemma replace_across (p new x : pystr) (c : char) (s : pystr) :
  p <> [] -> absent c p = true ->
  replace p new (x ++ c :: s) = replace p new x ++ c :: replace p new s.
Proof.
  intros Hp Habs.
  apply (replace_scan p new
           (fun x r => replace p new (x ++ c :: s) = r ++ c :: replace p new s) Hp).
  - cbn [app]. apply replace_nomatch; [exact Hp|].
    apply startswith_head_absent; assumption.
  - intros a y r E IH. cbn [app]. rewrite replace_nomatch, IH; [reflexivity|exact Hp|].
    destruct (startswith p (a :: y ++ c :: s)) eqn:E2; [|reflexivity].
    apply (startswith_barrier p (a :: y) c s Habs) in E2. congruence.
  - intros y r IH. rewrite <- !app_assoc, replace_match, IH by exact Hp.
    reflexivity.
Qed.

Lemma occurs_app_r (p x y : pystr) : occurs p y = true -> occurs p (x ++ y) = true.
Proof.
  intros H. induction x as [|a x IH]; [exact H|].
  cbn [app occurs]. rewrite IH. apply orb_true_r.
Qed.

Lemma occurs_app_l (p s : pystr) : occurs p (p ++ s) = true.
Proof.
  destruct (p ++ s) eqn:E; cbn [occurs]; rewrite <- E, startswith_app;
    reflexivity.
Qed.

(** Where the pattern occurs and [new] has another length, the length of
    the text changes. *)
Lemma replace_length (p new s : pystr) :
  p <> [] ->
  ((length new < length p)%nat ->
     (length (replace p new s) <= length s)%nat /\
     (occurs p s = true -> (length (replace p new s) < length s)%nat)) /\
  ((length p < length new)%nat ->
     (length s <= length (replace p new s))%nat /\
     (occurs p s = true -> (length s < length (replace p new s))%nat)).
Proof.
  intros Hp.
  apply (replace_scan p new
    (fun s r =>
       ((length new < length p)%nat ->
          (length r <= length s)%nat /\
          (occurs p s = true -> (length r < length s)%nat)) /\
       ((length p < length new)%nat ->
          (length s <= length r)%nat /\
          (occurs p s = true -> (length s < length r)%nat))) Hp).
  - split; intros _; (split; [lia|]); destruct p; [congruence|discriminate
                                                  |congruence|discriminate].
  - intros c y r E [IH1 IH2].
    split; intros Hl; [destruct (IH1 Hl) as [A B]|destruct (IH2 Hl) as [A B]];
      cbn [length occurs]; rewrite E; cbn [orb];
      (split; [lia|intros Ho; specialize (B Ho); lia]).
  - intros y r [IH1 IH2].
    split; intros Hl; [destruct (IH1 Hl) as [A B]|destruct (IH2 Hl) as [A B]];
      rewrite !length_app; (split; [lia|intros _; lia]).
Qed.

End Replacing.

(** ** More on escaping *)

Section EscapingMore.
Import Render Page Spec.

Lemma escape_no_gt (s : pystr) : absent 62 (escape s) = true.
Proof.
  induction s as [|c s IH]; [reflexivity|].
  rewrite escape_cons. unfold absent in *. rewrite forallb_app.
  apply andb_true_intro. split; [|exact IH].
  destruct (esc_char_cases c)
    as [[_ ->]|[[_ ->]|[[_ ->]|(_ & _ & H62 & ->)]]]; try reflexivity.
  simpl. destruct (N.eqb_spec c 62); [contradiction|reflexivity].
Qed.

(** X3. Escaped text contains neither [<] nor [>], whatever the input. *)
Theorem escape_no_markup (s : pystr) :
  absent 60 (escape s) = true /\ absent 62 (escape s) = true.
Proof. split; [apply escape_no_lt|apply escape_no_gt]. Qed.

(** X4. Escaping loses nothing: two texts with the same escaped form are
    the same text. *)
Theorem escape_injective (s t : pystr) : escape s = escape t -> s = t.
Proof.
  revert t. induction s as [|c s IH]; intros [|d t] H.
  - reflexivity.
  - rewrite escape_cons in H.
    destruct (esc_char_cases d)
      as [[_ E]|[[_ E]|[[_ E]|(_ & _ & _ & E)]]]; rewrite E in H;
      discriminate.
  - rewrite escape_cons in H.
    destruct (esc_char_cases c)
      as [[_ E]|[[_ E]|[[_ E]|(_ & _ & _ & E)]]]; rewrite E in H;
      discriminate.
  - rewrite !escape_cons in H.
    destruct (esc_char_cases c)
      as [[-> E]|[[-> E]|[[-> E]|(C1 & C2 & C3 & E)]]];
    destruct (esc_char_cases d)
      as [[-> F]|[[-> F]|[[-> F]|(D1 & D2 & D3 & F)]]];
    rewrite ?E, ?F in H; cbn [app] in H;
    try (injection H as H; f_equal; apply IH; exact H);
    try (injection H as ? H; f_equal; [assumption|apply IH; exact H]);
    try (injection H as ?; congruence);
    try discriminate.
Qed.

Lemma escape_injective_witness :
  escape (lit "a<b") = escape [97; 60; 98] /\ lit "a<b" = [97; 60; 98].
Proof.
  split; [reflexivity|].
  apply (escape_injective (lit "a<b") [97; 60; 98]). reflexivity.
Defined.

Lemma startswith_escape_plain (p m : pystr) :
  absent 38 p = true -> absent 60 p = true -> absent 62 p = true ->
  startswith p m = true -> startswith p (escape m) = true.
Proof.
  revert m. induction p as [|a p IH]; intros m H38 H60 H62 H; [reflexivity|].
  destruct m as [|c m]; [discriminate|].
  apply absent_head in H38 as [A38 H38]. apply absent_head in H60 as [A60 H60].
  apply absent_head in H62 as [A62 H62].
  cbn [startswith] in H. destruct (N.eqb_spec a c) as [->|]; [|discriminate].
  rewrite escape_cons.
  destruct (esc_char_cases c)
    as [[-> _]|[[-> _]|[[-> _]|(_ & _ & _ & E)]]]; try discriminate.
  rewrite E. cbn [app startswith]. rewrite N.eqb_refl. apply IH; assumption.
Qed.

(** An unescaped pattern occurs in the escaped text exactly when it occurs
    in the text. *)
Lemma occurs_escape_eq (p m : pystr) :
  unescaped p = true -> occurs p (escape m) = occurs p m.
Proof.
  intros H. destruct (occurs p m) eqn:E; [|apply occurs_escape; assumption].
  destruct (unescaped_parts p H) as (Hp & H38 & H60 & H62 & _).
  induction m as [|c m IH].
  - destruct p; [congruence|discriminate].
  - cbn [occurs] in E. apply orb_prop in E as [E|E].
    + apply (startswith_escape_plain p (c :: m) H38 H60 H62) in E.
      destruct (escape (c :: m)); cbn [occurs]; rewrite E; reflexivity.
    + rewrite escape_cons. apply occurs_app_r. apply IH. exact E.
Qed.

End EscapingMore.

(** ** Stripping *)

Section Stripping.
Import Relay Spec.

Lemma lstrip_split (s : pystr) :
  exists ws, s = ws ++ lstrip s /\ blank ws = true.
Proof.
  induction s as [|c s (ws & E & B)]; [exists []; split; reflexivity|].
  cbn [lstrip]. destruct (is_space c) eqn:Hc.
  - exists (c :: ws). split; [cbn [app]; f_equal; exact E|].
    unfold blank in *. cbn [forallb]. rewrite Hc, B. reflexivity.
  - exists []. split; reflexivity.
Qed.

Lemma lstrip_result (s : pystr) :
  lstrip s = [] \/ starts_clean (lstrip s) = true.
Proof.
  induction s as [|c s IH]; [left; reflexivity|].
  cbn [lstrip]. destruct (is_space c) eqn:Hc; [exact IH|].
  right. cbn [starts_clean]. rewrite Hc. reflexivity.
Qed.

Lemma lstrip_nil (s : pystr) : lstrip s = [] <-> blank s = true.
Proof.
  unfold blank. induction s as [|c s IH]; [split; reflexivity|].
  cbn [lstrip forallb]. destruct (is_space c); [exact IH|].
  split; discriminate.
Qed.

Lemma blank_rev (s : pystr) : blank (rev s) = blank s.
Proof.
  unfold blank. induction s as [|c s IH]; [reflexivity|].
  cbn [rev forallb]. rewrite forallb_app, IH. cbn [forallb].
  rewrite andb_true_r. apply andb_comm.
Qed.

(** Stripping gives the empty string exactly for white space. *)
Lemma strip_nil (s : pystr) : strip s = [] <-> blank s = true.
Proof.
  unfold strip, rstrip. split.
  - intros H. apply (f_equal (@rev char)) in H. rewrite rev_involutive in H.
    cbn [rev] in H. apply lstrip_nil in H. rewrite blank_rev in H.
    apply lstrip_nil. destruct (lstrip_result s) as [Ht|Ht]; [exact Ht|].
    destruct (lstrip s) as [|c t]; [reflexivity|].
    unfold blank in H. cbn [forallb starts_clean] in H, Ht.
    destruct (is_space c); discriminate.
  - intros H. apply lstrip_nil in H. rewrite H. reflexivity.
Qed.

(** What stripping leaves is empty or has no white space at either end. *)
Lemma strip_trimmed (s : pystr) :
  strip s = [] \/ (starts_clean (strip s) = true /\ ends_clean (strip s) = true).
Proof.
  unfold strip, rstrip. set (t := lstrip s).
  destruct (lstrip_result (rev t)) as [Hu|Hu]; [left; rewrite Hu; reflexivity|].
  right. split; [|unfold ends_clean; rewrite rev_involutive; exact Hu].
  destruct (lstrip_split (rev t)) as (ws & E & B).
  apply (f_equal (@rev char)) in E. rewrite rev_involutive, rev_app_distr in E.
  destruct (rev (lstrip (rev t))) as [|c u] eqn:Eu.
  - apply (f_equal (@rev char)) in Eu. rewrite rev_involutive in Eu.
    rewrite Eu in Hu. discriminate.
  - destruct (lstrip_result s) as [Ht|Ht]; fold t in Ht;
      rewrite E in Ht; [discriminate|exact Ht].
Qed.

Lemma blank_app (x y : pystr) : blank (x ++ y) = blank x && blank y.
Proof. apply forallb_app. Qed.

(** Joining with blank lines gives white space exactly from white space. *)
Lemma blank_join (xs : list pystr) :
  blank (join (nl ++ nl) xs) = forallb blank xs.
Proof.
  induction xs as [|x xs IH]; [reflexivity|].
  destruct xs as [|y xs].
  - cbn [join forallb]. rewrite andb_true_r. reflexivity.
  - change (join (nl ++ nl) (x :: y :: xs))
      with (x ++ (nl ++ nl) ++ join (nl ++ nl) (y :: xs)).
    rewrite !blank_app, IH. cbn [forallb]. reflexivity.
Qed.

(** The chunks with blank lines between them are what [join] gives. *)
Lemma join_with_blank_lines (xs : list pystr) :
  join (nl ++ nl) xs = with_blank_lines xs.
Proof.
  destruct xs as [|x xs]; [reflexivity|]. revert x.
  induction xs as [|y xs IH]; intros x.
  - cbn [join with_blank_lines flat_map]. rewrite app_nil_r. reflexivity.
  - change (join (nl ++ nl) (x :: y :: xs))
      with (x ++ (nl ++ nl) ++ join (nl ++ nl) (y :: xs)).
    rewrite IH. reflexivity.
Qed.

Lemma lstrip_blank_app (ws t : pystr) :
  blank ws = true -> lstrip (ws ++ t) = lstrip t.
Proof.
  unfold blank. induction ws as [|c ws IH]; intros H; [reflexivity|].
  cbn [forallb] in H. apply andb_prop in H as [Hc H].
  cbn [app lstrip]. rewrite Hc. apply IH. exact H.
Qed.

(** [strip] trims: its result is the text between the leading and the
    trailing white space. *)
Lemma strip_trimmed_of (s : pystr) : trimmed_of s (strip s).
Proof.
  destruct (lstrip_split s) as (ws1 & E1 & B1).
  destruct (lstrip_split (rev (lstrip s))) as (ws & E2 & B2).
  exists ws1, (rev ws). split; [|split; [exact B1|split]].
  - rewrite E1 at 1. f_equal. unfold strip, rstrip.
    rewrite <- rev_app_distr, <- E2, rev_involutive. reflexivity.
  - rewrite blank_rev. exact B2.
  - apply strip_trimmed.
Qed.

(** Nothing else is the trimmed form of [s]. *)
Lemma trimmed_of_strip (s r : pystr) : trimmed_of s r -> r = strip s.
Proof.
  intros (ws1 & ws2 & -> & B1 & B2 & Hr).
  unfold strip. rewrite (lstrip_blank_app ws1 _ B1).
  destruct Hr as [->|[Hs He]].
  - cbn [app]. rewrite (proj2 (lstrip_nil ws2) B2). reflexivity.
  - rewrite (lstrip_clean (r ++ ws2)) by (apply starts_clean_app; exact Hs).
    unfold rstrip. rewrite rev_app_distr.
    rewrite lstrip_blank_app by (rewrite blank_rev; exact B2).
    rewrite (lstrip_clean (rev r) He). symmetry. apply rev_involutive.
Qed.

End Stripping.

(** ** Encoding the page *)

Section Encoding.
Import Render Page Spec.

Lemma first_surrogate_none (i : nat) (s : pystr) :
  first_surrogate i s = None <-> encodable s = true.
Proof.
  unfold encodable. revert i. induction s as [|c s IH]; intros i.
  - split; reflexivity.
  - cbn [first_surrogate forallb]. destruct (is_surrogate c).
    + split; discriminate.
    + apply IH.
Qed.

(** The response is built exactly for the strings without a surrogate. *)
Lemma HTMLResponse_encodable (s : pystr) :
  encodable s = true -> HTMLResponse s = Ok s.
Proof.
  intros H. unfold HTMLResponse.
  rewrite (proj2 (first_surrogate_none 0 s) H). reflexivity.
Qed.

Lemma HTMLResponse_raises (s : pystr) :
  encodable s = false ->
  exists e, HTMLResponse s = Raise e /\ exn_class e = UnicodeEncodeError.
Proof.
  intros H. unfold HTMLResponse.
  destruct (first_surrogate 0 s) as [[[start c] rest]|] eqn:E.
  - eexists. split; reflexivity.
  - apply first_surrogate_none in E. congruence.
Qed.

Lemma HTMLResponse_Ok (s h : pystr) :
  HTMLResponse s = Ok h -> h = s /\ encodable s = true.
Proof.
  intros H. destruct (encodable s) eqn:E.
  - rewrite (HTMLResponse_encodable s E) in H. apply Ok_inj in H. auto.
  - destruct (HTMLResponse_raises s E) as (e & He & _). congruence.
Qed.

Lemma encodable_app (x y : pystr) :
  encodable (x ++ y) = encodable x && encodable y.
Proof. apply forallb_app. Qed.

Lemma encodable_escape (s : pystr) : encodable (escape s) = encodable s.
Proof.
  induction s as [|c s IH]; [reflexivity|].
  rewrite escape_cons, encodable_app, IH.
  change (encodable (c :: s)) with (negb (is_surrogate c) && encodable s).
  f_equal.
  destruct (esc_char_cases c)
    as [[-> ->]|[[-> ->]|[[-> ->]|(_ & _ & _ & ->)]]]; try reflexivity.
  unfold encodable. cbn [forallb]. apply andb_true_r.
Qed.

Lemma encodable_replace (p new s : pystr) :
  p <> [] -> encodable new = true -> encodable s = true ->
  encodable (replace p new s) = true.
Proof.
  intros Hp Hn.
  apply (replace_scan p new
           (fun s r => encodable s = true -> encodable r = true) Hp).
  - trivial.
  - intros c x r _ IH H.
    change (encodable (c :: x)) with (negb (is_surrogate c) && encodable x) in H.
    change (encodable (c :: r)) with (negb (is_surrogate c) && encodable r).
    apply andb_prop in H as [H1 H2]. rewrite H1, (IH H2). reflexivity.
  - intros x r IH H. rewrite encodable_app in H. apply andb_prop in H as [_ H].
    rewrite encodable_app, Hn, (IH H). reflexivity.
Qed.

Lemma encodable_replace_inv (p new s : pystr) :
  p <> [] -> encodable p = true -> encodable (replace p new s) = true ->
  encodable s = true.
Proof.
  intros Hp Hpe.
  apply (replace_scan p new
           (fun s r => encodable r = true -> encodable s = true) Hp).
  - trivial.
  - intros c x r _ IH H.
    change (encodable (c :: r)) with (negb (is_surrogate c) && encodable r) in H.
    change (encodable (c :: x)) with (negb (is_surrogate c) && encodable x).
    apply andb_prop in H as [H1 H2]. rewrite H1, (IH H2). reflexivity.
  - intros x r IH H. rewrite encodable_app in H. apply andb_prop in H as [_ H].
    rewrite encodable_app, Hpe, (IH H). reflexivity.
Qed.

Lemma encodable_block (a : pystr) : encodable (block_for a) = encodable a.
Proof.
  destruct a as [|c a]; [reflexivity|].
  cbn [block_for]. unfold answer_block.
  rewrite !encodable_app, encodable_escape.
  change (encodable answer_open) with true.
  change (encodable answer_close) with true.
  rewrite andb_true_r. reflexivity.
Qed.

(** The page can be encoded exactly when the message and the answer can. *)
Lemma encodable_page (m a : pystr) :
  encodable (page_for m a) = encodable m && encodable a.
Proof.
  unfold page_for. rewrite !encodable_app, encodable_block.
  assert (Hh : encodable page_head = true) by (vm_compute; reflexivity).
  assert (Hm : encodable page_mid = true) by (vm_compute; reflexivity).
  assert (Ht : encodable page_tail = true) by (vm_compute; reflexivity).
  rewrite Hh, Hm, Ht, andb_true_r. cbn [andb].
  destruct (encodable a) eqn:Ea; [|rewrite !andb_false_r; reflexivity].
  rewrite !andb_true_r. unfold field_text.
  destruct (encodable m) eqn:Em.
  - apply encodable_replace; [discriminate| |].
    + rewrite encodable_block. exact Ea.
    + rewrite encodable_escape. exact Em.
  - destruct (encodable (replace answer_slot (block_for a) (escape m))) eqn:E;
      [|reflexivity].
    apply encodable_replace_inv in E; [|discriminate|reflexivity].
    rewrite encodable_escape in E. congruence.
Qed.

End Encoding.

(** ** The renderer *)

Section Rendering.
Import Render Page Spec.

(** On strings the two substitutions are made and the result handed to the
    response; the first always puts the escaped message in the field. *)
Lemma render_str (m a : pystr) :
  render (PStr m) (PStr a) =
  HTMLResponse
    (replace answer_slot (block_for a)
       (page_head ++ escape m ++ page_mid ++ answer_slot ++ page_tail)).
Proof.
  unfold render.
  assert (Hm : py_escape (py_or (PStr m) (PStr [])) = Ok (PStr (escape m))).
  { destruct m; reflexivity. }
  rewrite Hm. destruct a as [|c a].
  - cbn [truthy bind as_str block_for]. rewrite replace_message_slot. reflexivity.
  - cbn [truthy]. rewrite py_escape_str.
    cbn [bind as_str block_for]. rewrite replace_message_slot. reflexivity.
Qed.

(** The two substitutions, for every message and answer. *)
Lemma render_shape (m a : pystr) :
  render (PStr m) (PStr a) = HTMLResponse (page_for m a).
Proof.
  rewrite render_str. f_equal. unfold page_for, field_text.
  destruct page_head_field as [E _]. rewrite E.
  destruct page_mid_field as [F _]. rewrite F.
  rewrite <- !app_assoc.
  change (lit ">" ++ ?r) with (62 :: r).
  change (lit "<" ++ ?r) with (60 :: r).
  change (lit " " ++ ?r) with (32 :: r).
  rewrite replace_barrier;
    [|discriminate|vm_compute; reflexivity|vm_compute; reflexivity].
  rewrite replace_across; [|discriminate|vm_compute; reflexivity].
  rewrite replace_barrier;
    [|discriminate|vm_compute; reflexivity|vm_compute; reflexivity].
  rewrite replace_match by discriminate.
  rewrite (replace_absent _ _ page_tail);
    [reflexivity|discriminate|vm_compute; reflexivity].
Qed.

(** [render] returns for the strings UTF-8 can encode, and what it returns
    is the page. *)
Lemma render_returns (m a : pystr) :
  encodable m = true -> encodable a = true ->
  render (PStr m) (PStr a) = Ok (page_for m a).
Proof.
  intros Hm Ha. rewrite render_shape. apply HTMLResponse_encodable.
  rewrite encodable_page, Hm, Ha. reflexivity.
Qed.

Lemma render_Ok (m a html : pystr) :
  render (PStr m) (PStr a) = Ok html ->
  html = page_for m a /\ encodable m = true /\ encodable a = true.
Proof.
  rewrite render_shape. intros H. apply HTMLResponse_Ok in H as [-> H].
  rewrite encodable_page in H. apply andb_prop in H. auto.
Qed.

Lemma render_surrogate (m a : pystr) :
  encodable m = false \/ encodable a = false ->
  exists e, render (PStr m) (PStr a) = Raise e /\
            exn_class e = UnicodeEncodeError.
Proof.
  intros H. rewrite render_shape. apply HTMLResponse_raises.
  rewrite encodable_page. destruct H as [-> | ->];
    [reflexivity|apply andb_false_r].
Qed.

(** The field of a message whose escaped form does not contain the answer
    placeholder is the escaped message. *)
Lemma field_text_intact (m a : pystr) :
  occurs answer_slot (escape m) = false -> field_text m a = escape m.
Proof. intros H. apply replace_absent; [discriminate|exact H]. Qed.

(** The page for such a message: escaped message in the field, the block
    behind the form. *)
Lemma render_parts (m a : pystr) :
  occurs answer_slot (escape m) = false ->
  render (PStr m) (PStr a) =
  HTMLResponse (page_head ++ escape m ++ page_mid ++ block_for a ++ page_tail).
Proof.
  intros H. rewrite render_shape. unfold page_for.
  rewrite (field_text_intact m a H). reflexivity.
Qed.

(** For a message that does not contain the text of the answer
    placeholder the page is as intended: the escaped message in the field,
    the answer container once behind the form when there is an answer and
    not at all otherwise. *)
Lemma render_page (m a html : pystr) :
  occurs answer_slot m = false ->
  render (PStr m) (PStr a) = Ok html ->
  html = page_head ++ escape m ++ page_mid ++ block_for a ++ page_tail /\
  textarea_open `suffix_of` page_head /\
  textarea_close `prefix_of` page_mid /\
  count_at answer_tag html = match a with [] => 0%nat | _ :: _ => 1%nat end.
Proof.
  intros H Hr. apply render_Ok in Hr as (-> & _ & _). unfold page_for.
  rewrite field_text_intact
    by (apply occurs_escape; [vm_compute; reflexivity|exact H]).
  split; [reflexivity|].
  split; [apply page_head_field|]. split; [apply page_mid_field|].
  apply count_answer_tag.
Qed.

Lemma shown_str (s : pystr) : shown (PStr s) = s.
Proof. destruct s; reflexivity. Qed.

Lemma render_falsy_message (v w : pyval) :
  truthy v = false -> render v w = render (PStr []) w.
Proof. intros H. unfold render, py_or. rewrite H. reflexivity. Qed.

Lemma render_falsy_answer (v w : pyval) :
  truthy w = false -> render v w = render v (PStr []).
Proof. intros H. unfold render. rewrite H. reflexivity. Qed.

(** Behind the replacement, an occurrence of [<script>] in the message is
    [&lt;script&gt;] in the field. *)
Lemma field_text_script (x y a : pystr) :
  field_text (x ++ lit "<script>" ++ y) a =
  replace answer_slot (block_for a) (escape x) ++ lit "&lt;script&gt;" ++
  replace answer_slot (block_for a) (escape y).
Proof.
  unfold field_text. rewrite !escape_app.
  change (escape (lit "<script>"))
    with (38 :: lit "lt;script" ++ 38 :: lit "gt" ++ [59]).
  rewrite <- ?app_assoc. cbn [app].
  rewrite replace_across; [|discriminate|vm_compute; reflexivity].
  repeat (rewrite <- app_assoc; cbn [app]).
  rewrite (replace_across _ _ (lit "lt;script") 38);
    [|discriminate|vm_compute; reflexivity].
  rewrite (replace_across _ _ (lit "gt") 59);
    [|discriminate|vm_compute; reflexivity].
  rewrite (replace_absent _ _ (lit "lt;script"));
    [|discriminate|vm_compute; reflexivity].
  rewrite (replace_absent _ _ (lit "gt"));
    [|discriminate|vm_compute; reflexivity].
  reflexivity.
Qed.

(** C7. Escaping substitutes every character of the input exactly once
    ([&], [<] and [>] by their entities, in that order of replacement), so
    nothing is escaped twice: wherever a message contains [<script>] that
    part becomes [&lt;script&gt;], and in every page [render] returns for
    such a message the field shows it as [&lt;script&gt;], not as
    [&amp;lt;script&amp;gt;], which is what replacing [&] last would give.
    [render] does return such a page whenever message and answer can be
    encoded. *)
Theorem escape_no_double_escaping :
  (forall s, escape s = flat_map esc_char s) /\
  (forall x y,
     escape (x ++ lit "<script>" ++ y) =
     escape x ++ lit "&lt;script&gt;" ++ escape y) /\
  escape (lit "<script>") = lit "&lt;script&gt;" /\
  escape (lit "<script>") <> lit "&amp;lt;script&amp;gt;" /\
  (forall x y a html,
     render (PStr (x ++ lit "<script>" ++ y)) (PStr a) = Ok html ->
     html =
       page_head ++
       (replace answer_slot (block_for a) (escape x) ++
        lit "&lt;script&gt;" ++
        replace answer_slot (block_for a) (escape y)) ++
       page_mid ++ block_for a ++ page_tail) /\
  (forall x y a,
     encodable x = true -> encodable y = true -> encodable a = true ->
     exists html,
       render (PStr (x ++ lit "<script>" ++ y)) (PStr a) = Ok html) /\
  replace (lit "&") (lit "&amp;")
    (replace (lit ">") (lit "&gt;")
       (replace (lit "<") (lit "&lt;") (lit "<script>"))) =
  lit "&amp;lt;script&amp;gt;".
Proof.
  split; [exact escape_flat_map|].
  split; [intros x y; rewrite !escape_app; reflexivity|].
  split; [reflexivity|].
  split; [discriminate|].
  split; [|split; [|reflexivity]].
  - intros x y a html H. apply render_Ok in H as (-> & _ & _).
    unfold page_for. rewrite field_text_script. reflexivity.
  - intros x y a Hx Hy Ha. eexists. apply render_returns; [|exact Ha].
    rewrite !encodable_app, Hx, Hy. reflexivity.
Qed.

Lemma escape_no_double_escaping_witness :
  exists html,
    render (PStr (lit "say " ++ lit "<script>" ++ lit " & more"))
           (PStr (lit "ok")) = Ok html /\
    html =
      page_head ++
      (lit "say " ++ lit "&lt;script&gt;" ++ lit " &amp; more") ++
      page_mid ++ block_for (lit "ok") ++ page_tail.
Proof.
  destruct escape_no_double_escaping as (_ & _ & _ & _ & H5 & H6 & _).
  destruct (H6 (lit "say ") (lit " & more") (lit "ok") eq_refl eq_refl eq_refl)
    as [html H].
  exists html. split; [exact H|].
  exact (H5 (lit "say ") (lit " & more") (lit "ok") html H).
Defined.

(** C6, at the message [{{answer_block}}] with the answer [x]: the second
    substitution also rewrites the message just put in the field, so the
    field holds a copy of the answer block instead of the escaped message,
    the answer container occurs twice, and with an empty answer the field
    is left empty. *)
Theorem render_placeholder_in_message :
  let m := lit "{{answer_block}}" in
  let a := lit "x" in
  let html := page_head ++ answer_block a ++ page_mid ++ answer_block a ++ page_tail in
  render (PStr m) (PStr a) = Ok html /\
  escape m = m /\
  occurs (escape m) html = false /\
  count_at answer_tag html = 2%nat /\
  render (PStr m) (PStr []) = Ok (page_head ++ [] ++ page_mid ++ [] ++ page_tail).
Proof. vm_compute. repeat split; reflexivity. Qed.

(** C8 fails for a number, for bytes and for a string with a surrogate:
    [render] raises on each. *)
Lemma render_raises_on_bad_input :
  render (PInt 5) (PStr []) =
    Raise (Exn AttributeError (lit "'int' object has no attribute 'replace'")) /\
  render (PBytes [104; 105]) (PStr []) =
    Raise (Exn TypeError (lit "a bytes-like object is required, not 'str'")) /\
  render (PStr [55296]) (PStr []) =
    Raise (Exn UnicodeEncodeError
             (lit "'utf-8' codec can't encode character '\ud800' in position "
              ++ decimal (length page_head) ++ lit ": surrogates not allowed")).
Proof. vm_compute. repeat split; reflexivity. Qed.

Lemma py_escape_bad (v : pyval) :
  ~ renderable v ->
  truthy v = true /\
  exists e, py_escape v = Raise e /\ exn_class e = replace_error v.
Proof.
  intros Hv. destruct v as [|b|z|s|b|l].
  - exfalso. apply Hv. right. reflexivity.
  - destruct b; [split; [reflexivity|eexists; split; reflexivity]|].
    exfalso. apply Hv. right. reflexivity.
  - destruct (truthy (PInt z)) eqn:E;
      [split; [reflexivity|eexists; split; reflexivity]|].
    exfalso. apply Hv. right. exact E.
  - exfalso. apply Hv. left. eexists. reflexivity.
  - destruct b as [|x b]; [exfalso; apply Hv; right; reflexivity|].
    split; [reflexivity|eexists; split; reflexivity].
  - destruct l as [|x l]; [exfalso; apply Hv; right; reflexivity|].
    split; [reflexivity|eexists; split; reflexivity].
Qed.

Lemma render_shown (message answer : pyval) :
  renderable message -> renderable answer ->
  render message answer = render (PStr (shown message)) (PStr (shown answer)).
Proof.
  intros Hm Ha.
  transitivity (render (PStr (shown message)) answer).
  - destruct Hm as [[m ->]|Hm]; [rewrite shown_str; reflexivity|].
    rewrite render_falsy_message by exact Hm.
    unfold shown. rewrite Hm. reflexivity.
  - destruct Ha as [[a ->]|Ha]; [rewrite shown_str; reflexivity|].
    rewrite render_falsy_answer by exact Ha.
    assert (E : shown answer = []) by (unfold shown; rewrite Ha; reflexivity).
    rewrite E. reflexivity.
Qed.

(** C8, amended. [render] is a function of its two arguments alone.  A
    string, and [None] or any other false value, which stands for the
    empty string, is rendered: the page is returned when message and
    answer have no surrogate, and the response raises [UnicodeEncodeError]
    when one has.  A true value that is not a string makes [.replace]
    raise, the answer before the message: [TypeError] for bytes,
    [AttributeError] for a number or a list. *)
Theorem render_outcomes (message answer : pyval) :
  (renderable message -> renderable answer ->
     render message answer =
       render (PStr (shown message)) (PStr (shown answer)) /\
     (encodable (shown message) = true -> encodable (shown answer) = true ->
        render message answer = Ok (page_for (shown message) (shown answer))) /\
     (encodable (shown message) = false \/ encodable (shown answer) = false ->
        exists e, render message answer = Raise e /\
                  exn_class e = UnicodeEncodeError)) /\
  (~ renderable answer ->
     exists e, render message answer = Raise e /\
               exn_class e = replace_error answer) /\
  (renderable answer -> ~ renderable message ->
     exists e, render message answer = Raise e /\
               exn_class e = replace_error message).
Proof.
  split; [|split].
  - intros Hm Ha. rewrite (render_shown message answer Hm Ha).
    split; [reflexivity|]. split.
    + apply render_returns.
    + apply render_surrogate.
  - intros Ha. destruct (py_escape_bad answer Ha) as (Ht & e & He & Hc).
    exists e. split; [|exact Hc]. unfold render. rewrite Ht, He. reflexivity.
  - intros Ha Hm. destruct (py_escape_bad message Hm) as (Ht & e & He & Hc).
    exists e. split; [|exact Hc].
    destruct Ha as [[a ->]|Ha]; unfold render, py_or.
    + rewrite Ht, He. destruct (truthy (PStr a)); [rewrite py_escape_str|];
        reflexivity.
    + rewrite Ha, Ht, He. reflexivity.
Qed.

Lemma render_outcomes_witness :
  render PNone (PStr (lit "ok")) = Ok (page_for [] (lit "ok")) /\
  (exists e, render (PStr (lit "q")) (PStr [56832]) = Raise e /\
             exn_class e = UnicodeEncodeError) /\
  (exists e, render (PStr (lit "q")) (PBytes [111; 107]) = Raise e /\
             exn_class e = TypeError) /\
  (exists e, render (PList [PNone]) (PStr (lit "ok")) = Raise e /\
             exn_class e = AttributeError).
Proof.
  split; [|split; [|split]].
  - apply (proj1 (render_outcomes PNone (PStr (lit "ok")))).
    + right. reflexivity.
    + left. eexists. reflexivity.
    + reflexivity.
    + reflexivity.
  - apply (proj1 (render_outcomes (PStr (lit "q")) (PStr [56832]))).
    + left. eexists. reflexivity.
    + left. eexists. reflexivity.
    + right. reflexivity.
  - apply (proj1 (proj2 (render_outcomes (PStr (lit "q")) (PBytes [111; 107])))).
    intros [[s Hs]|Hf]; discriminate.
  - apply (proj2 (proj2 (render_outcomes (PList [PNone]) (PStr (lit "ok"))))).
    + left. eexists. reflexivity.
    + intros [[s Hs]|Hf]; discriminate.
Defined.

(** X1. For all strings [render] hands the response the template with
    [field_text] in the editable field and the answer block behind the
    form: the field holds the escaped message in which every
    [{{answer_block}}] has been replaced by the block, and an answer
    containing either placeholder is shown as it is.  That page is what
    [render] returns whenever it returns, which it does exactly when
    neither the message nor the answer has a surrogate; otherwise the
    response raises [UnicodeEncodeError]. *)
Theorem render_field_and_block (m a : pystr) :
  render (PStr m) (PStr a) =
    HTMLResponse
      (page_head ++ field_text m a ++ page_mid ++ block_for a ++ page_tail) /\
  (forall html,
     render (PStr m) (PStr a) = Ok html ->
     html = page_head ++ field_text m a ++ page_mid ++ block_for a ++ page_tail) /\
  (encodable m = true -> encodable a = true ->
     render (PStr m) (PStr a) =
     Ok (page_head ++ field_text m a ++ page_mid ++ block_for a ++ page_tail)) /\
  (encodable m = false \/ encodable a = false ->
     exists e, render (PStr m) (PStr a) = Raise e /\
               exn_class e = UnicodeEncodeError) /\
  HTML = page_head ++ message_slot ++ page_mid ++ answer_slot ++ page_tail /\
  textarea_open `suffix_of` page_head /\
  textarea_close `prefix_of` page_mid.
Proof.
  split; [apply render_shape|].
  split; [intros html H; apply render_Ok in H as [H _]; exact H|].
  split; [apply render_returns|].
  split; [apply render_surrogate|].
  split; [apply HTML_parts|].
  split; [apply page_head_field|apply page_mid_field].
Qed.

Lemma render_field_and_block_witness :
  render (PStr (lit "{{message}} & {{answer_block}}")) (PStr (lit "{{message}}")) =
  Ok (page_head ++
      (lit "{{message}} &amp; " ++ block_for (lit "{{message}}")) ++
      page_mid ++ block_for (lit "{{message}}") ++ page_tail).
Proof.
  apply (proj1 (proj2 (proj2 (render_field_and_block
           (lit "{{message}} & {{answer_block}}") (lit "{{message}}")))));
    reflexivity.
Defined.

Lemma block_for_length (a : pystr) : length (block_for a) <> length answer_slot.
Proof.
  destruct a as [|c a]; [discriminate|].
  cbn [block_for]. unfold answer_block. rewrite length_app.
  assert (H : (length answer_slot < length answer_open)%nat)
    by (vm_compute; lia).
  lia.
Qed.

(** X2. A page [render] returns has its intended form, the escaped
    message in the field and the answer block behind the form, if and only
    if the message does not contain the text [{{answer_block}}]. *)
Theorem render_field_intact_iff (m a html : pystr) :
  render (PStr m) (PStr a) = Ok html ->
  (html = page_head ++ escape m ++ page_mid ++ block_for a ++ page_tail
   <-> occurs answer_slot m = false).
Proof.
  intros Hr. apply render_Ok in Hr as (-> & _ & _). unfold page_for. split.
  - intros H. apply app_inv_head in H.
    apply (app_inv_tail (page_mid ++ block_for a ++ page_tail)) in H.
    destruct (occurs answer_slot m) eqn:E; [exfalso|reflexivity].
    rewrite <- (occurs_escape_eq answer_slot m) in E by (vm_compute; reflexivity).
    pose proof (block_for_length a) as Hl.
    destruct (replace_length answer_slot (block_for a) (escape m)
                ltac:(discriminate)) as [H1 H2].
    unfold field_text in H.
    destruct (Nat.lt_total (length (block_for a)) (length answer_slot))
      as [L|[L|L]]; [|contradiction|].
    + destruct (H1 L) as [_ B]. specialize (B E). rewrite H in B. lia.
    + destruct (H2 L) as [_ B]. specialize (B E). rewrite H in B. lia.
  - intros H. rewrite field_text_intact; [reflexivity|].
    rewrite occurs_escape_eq by (vm_compute; reflexivity). exact H.
Qed.

Lemma render_field_intact_iff_witness :
  render (PStr (lit "a < b")) (PStr (lit "yes")) =
    Ok (page_for (lit "a < b") (lit "yes")) /\
  page_for (lit "a < b") (lit "yes") =
    page_head ++ lit "a &lt; b" ++ page_mid ++ block_for (lit "yes") ++ page_tail.
Proof.
  assert (H : render (PStr (lit "a < b")) (PStr (lit "yes")) =
              Ok (page_for (lit "a < b") (lit "yes")))
    by (apply render_returns; reflexivity).
  split; [exact H|].
  apply (proj2 (render_field_intact_iff (lit "a < b") (lit "yes") _ H)).
  reflexivity.
Defined.

Lemma count_at_zero (p s : pystr) : count_at p s = 0%nat -> occurs p s = false.
Proof.
  induction s as [|c s IH]; cbn [count_at occurs];
    destruct (startswith p _); try discriminate; try reflexivity.
  intros H. apply IH. exact H.
Qed.

(** A pattern beginning with [<] that neither occurs in the fixed parts of
    the answer block nor reaches out of them is not counted in a block. *)
Lemma count_at_block (q o1 : pystr) (co : char) (o2 c1 : pystr) (cc : char)
    (c2 : pystr) :
  answer_open = o1 ++ co :: o2 ->
  absent co (60 :: q) = true -> absent 60 (co :: o2) = true ->
  count_at (60 :: q) o1 = 0%nat ->
  answer_close = c1 ++ cc :: c2 ->
  absent cc (60 :: q) = true -> absent 60 (cc :: c2) = true ->
  count_at (60 :: q) c1 = 0%nat ->
  forall a y, count_at (60 :: q) (block_for a ++ y) = count_at (60 :: q) y.
Proof.
  intros Ho Ho1 Ho2 Ho3 Hc Hc1 Hc2 Hc3 [|c a] y; [reflexivity|].
  cbn [block_for]. unfold answer_block.
  rewrite <- !app_assoc, Ho, count_at_part by assumption.
  rewrite (count_at_skip 60 _ (escape (c :: a))) by apply escape_no_lt.
  rewrite Hc, count_at_part by assumption.
  unfold pystr, char in *. rewrite Ho3, Hc3. reflexivity.
Qed.

(** Such a pattern is not counted in the field either. *)
Lemma count_at_field (q : pystr) :
  (forall a y, count_at (60 :: q) (block_for a ++ y) = count_at (60 :: q) y) ->
  forall m a y,
    count_at (60 :: q) (field_text m a ++ y) = count_at (60 :: q) y.
Proof.
  intros Hb m a y. unfold field_text.
  pose proof (escape_no_lt m) as Hm. revert Hm y.
  apply (replace_scan answer_slot (block_for a)
           (fun s r => absent 60 s = true ->
                       forall y, count_at (60 :: q) (r ++ y) =
                                 count_at (60 :: q) y));
    [discriminate| | |].
  - intros _ y. reflexivity.
  - intros c s r _ IH Hs y. apply absent_head in Hs as [Hc Hs].
    change ((c :: r) ++ y) with ([c] ++ (r ++ y)).
    rewrite count_at_skip; [apply IH; exact Hs|].
    simpl. rewrite Hc. reflexivity.
  - intros s r IH Hs y. unfold absent in Hs. rewrite forallb_app in Hs.
    apply andb_prop in Hs as [_ Hs].
    rewrite <- app_assoc, Hb. apply IH. exact Hs.
Qed.

(** Such a pattern occurs in the page as often as in the template. *)
Lemma count_at_page (q h1 : pystr) (ch : char) (h2 m1 : pystr) (cm : char)
    (m2 : pystr) :
  page_head = h1 ++ ch :: h2 ->
  absent ch (60 :: q) = true -> absent 60 (ch :: h2) = true ->
  page_mid = m1 ++ cm :: m2 ->
  absent cm (60 :: q) = true -> absent 60 (cm :: m2) = true ->
  (forall a y, count_at (60 :: q) (block_for a ++ y) = count_at (60 :: q) y) ->
  forall m a,
    count_at (60 :: q)
      (page_head ++ field_text m a ++ page_mid ++ block_for a ++ page_tail) =
    (count_at (60%N :: q) h1 + count_at (60%N :: q) m1 +
     count_at (60%N :: q) page_tail)%nat.
Proof.
  intros Hh Hh1 Hh2 Hm Hm1 Hm2 Hb m a.
  rewrite Hh, count_at_part by assumption.
  rewrite count_at_field by exact Hb.
  rewrite Hm, count_at_part by assumption.
  rewrite Hb. apply Nat.add_assoc.
Qed.

(** X5. Whatever the message and the answer, the page contains no
    [<script], and [</textarea] only once, where the template ends the
    field: neither text can open a script element or close the field. *)
Theorem render_no_script_one_field_end (m a html : pystr) :
  render (PStr m) (PStr a) = Ok html ->
  occurs script_open html = false /\ count_at textarea_end html = 1%nat.
Proof.
  intros H. apply render_Ok in H as (-> & _ & _). unfold page_for. split.
  - apply count_at_zero.
    change script_open with (60 :: drop 1 script_open).
    rewrite (count_at_page (drop 1 script_open)
               (before textarea_open page_head ++ lit "<te") 120
               (drop 4 textarea_open)
               (init (init (init page_mid))) 10 (lit "  "));
      try (vm_compute; reflexivity).
    apply (count_at_block (drop 1 script_open)
             (answer_tag ++ lit "<strong>Answer</strong><") 98 (lit "r/>")
             (lit "<") 47 (lit "div>")); vm_compute; reflexivity.
  - change textarea_end with (60 :: drop 1 textarea_end).
    rewrite (count_at_page (drop 1 textarea_end)
               (before textarea_open page_head ++ lit "<textarea ") 105
               (drop 11 textarea_open)
               (init (init (init page_mid))) 10 (lit "  "));
      try (vm_compute; reflexivity).
    apply (count_at_block (drop 1 textarea_end)
             (answer_tag ++ lit "<strong>Answer</strong><") 98 (lit "r/>")
             (lit "</") 100 (lit "iv>")); vm_compute; reflexivity.
Qed.

Lemma render_no_script_one_field_end_witness :
  exists html,
    render (PStr (lit "</textarea><script>alert(1)</script>{{answer_block}}"))
           (PStr (lit "<script src=x></script>")) = Ok html /\
    occurs script_open html = false /\ count_at textarea_end html = 1%nat.
Proof.
  eexists. split; [apply render_returns; reflexivity|].
  apply (render_no_script_one_field_end
           (lit "</textarea><script>alert(1)</script>{{answer_block}}")
           (lit "<script src=x></script>")).
  apply render_returns; reflexivity.
Defined.

End Rendering.

(** ** Start-up configuration *)

Section Startup.
Import Config.

(** C3 fails when both values are absent: the defaults are taken and the
    start-up goes on. *)
Lemma load_config_absent_uses_defaults :
  load_config ∅ =
  Ok {| PROJECT_ENDPOINT := DEFAULT_PROJECT_ENDPOINT;
        AGENT_ID := DEFAULT_AGENT_ID |}.
Proof. vm_compute. reflexivity. Qed.

Lemma environ_get_empty (env : environ) (key default : pystr) :
  default <> [] ->
  environ_get env key default = [] <-> env !! key = Some [].
Proof.
  intros Hd. unfold environ_get. destruct (env !! key) as [v|].
  - split; [intros ->; reflexivity|congruence].
  - split; [congruence|discriminate].
Qed.

(** C3, amended. Start-up fails with [RuntimeError] exactly when
    [PROJECT_ENDPOINT] or [AGENT_ID] is set to the empty string (the
    endpoint is tested first); a value that is absent is replaced by its
    built-in default and the check passes. *)
Theorem load_config_fails_iff_empty (env : environ) :
  (env !! lit "PROJECT_ENDPOINT" = Some [] ->
     load_config env =
     Raise (Exn RuntimeError (lit "PROJECT_ENDPOINT is not set."))) /\
  (env !! lit "PROJECT_ENDPOINT" <> Some [] ->
   env !! lit "AGENT_ID" = Some [] ->
     load_config env = Raise (Exn RuntimeError (lit "AGENT_ID is not set."))) /\
  (env !! lit "PROJECT_ENDPOINT" <> Some [] ->
   env !! lit "AGENT_ID" <> Some [] ->
     load_config env =
     Ok {| PROJECT_ENDPOINT :=
             default DEFAULT_PROJECT_ENDPOINT (env !! lit "PROJECT_ENDPOINT");
           AGENT_ID := default DEFAULT_AGENT_ID (env !! lit "AGENT_ID") |}).
Proof.
  assert (Hg : forall key d, environ_get env key d = default d (env !! key)).
  { intros key d. unfold environ_get. destruct (env !! key); reflexivity. }
  pose proof (environ_get_empty env (lit "PROJECT_ENDPOINT")
                DEFAULT_PROJECT_ENDPOINT ltac:(discriminate)) as He.
  pose proof (environ_get_empty env (lit "AGENT_ID")
                DEFAULT_AGENT_ID ltac:(discriminate)) as Ha.
  unfold load_config. rewrite <- !Hg.
  destruct (environ_get env (lit "PROJECT_ENDPOINT") DEFAULT_PROJECT_ENDPOINT)
    as [|c e] eqn:Ee.
  - split; [reflexivity|]. split; intros H; exfalso; apply H, He; reflexivity.
  - split; [intros H; apply He in H; discriminate|].
    destruct (environ_get env (lit "AGENT_ID") DEFAULT_AGENT_ID)
      as [|d a] eqn:Eg.
    + split; [reflexivity|]. intros _ H. exfalso. apply H, Ha. reflexivity.
    + split; [intros _ H; apply Ha in H; discriminate|reflexivity].
Qed.

Lemma load_config_fails_iff_empty_witness :
  load_config (<[lit "PROJECT_ENDPOINT" := []]> ∅) =
    Raise (Exn RuntimeError (lit "PROJECT_ENDPOINT is not set.")) /\
  load_config (<[lit "AGENT_ID" := []]> ∅) =
    Raise (Exn RuntimeError (lit "AGENT_ID is not set.")) /\
  load_config (<[lit "AGENT_ID" := lit "asst_9"]> ∅) =
    Ok {| PROJECT_ENDPOINT := DEFAULT_PROJECT_ENDPOINT;
          AGENT_ID := lit "asst_9" |}.
Proof.
  split; [|split].
  - apply (load_config_fails_iff_empty (<[lit "PROJECT_ENDPOINT" := []]> ∅)).
    vm_compute. reflexivity.
  - apply (load_config_fails_iff_empty (<[lit "AGENT_ID" := []]> ∅)).
    + vm_compute. discriminate.
    + vm_compute. reflexivity.
  - rewrite (proj2 (proj2 (load_config_fails_iff_empty
                              (<[lit "AGENT_ID" := lit "asst_9"]> ∅)))).
    + vm_compute. reflexivity.
    + vm_compute. discriminate.
    + vm_compute. discriminate.
Defined.

End Startup.

(** ** More on the configuration *)

Section StartupMore.
Import Config.

(** X6. A start-up that gets past the configuration has a non-empty
    endpoint and a non-empty agent id, each the value of the environment
    where it is set and the built-in default otherwise; no other variable
    of the environment has any influence. *)
Theorem load_config_ok (env : environ) (cfg : config) :
  load_config env = Ok cfg ->
  PROJECT_ENDPOINT cfg <> [] /\ AGENT_ID cfg <> [] /\
  PROJECT_ENDPOINT cfg =
    default DEFAULT_PROJECT_ENDPOINT (env !! lit "PROJECT_ENDPOINT") /\
  AGENT_ID cfg = default DEFAULT_AGENT_ID (env !! lit "AGENT_ID") /\
  (forall k v, k <> lit "PROJECT_ENDPOINT" -> k <> lit "AGENT_ID" ->
     load_config (<[k := v]> env) = Ok cfg).
Proof.
  unfold load_config.
  assert (Hg : forall key d, environ_get env key d = default d (env !! key)).
  { intros key d. unfold environ_get. destruct (env !! key); reflexivity. }
  assert (Hi : forall k v key d, k <> key ->
            environ_get (<[k := v]> env) key d = environ_get env key d).
  { intros k v key d Hk. unfold environ_get, environ in *.
    rewrite lookup_insert_ne by exact Hk. reflexivity. }
  rewrite <- !Hg.
  destruct (environ_get env (lit "PROJECT_ENDPOINT") DEFAULT_PROJECT_ENDPOINT)
    as [|c e] eqn:Ee; [discriminate|].
  destruct (environ_get env (lit "AGENT_ID") DEFAULT_AGENT_ID)
    as [|d a] eqn:Ea; [discriminate|].
  intros H. apply Ok_inj in H. subst cfg. cbn [PROJECT_ENDPOINT AGENT_ID].
  repeat split; try discriminate.
  intros k v H1 H2. rewrite !Hi, Ee, Ea by assumption. reflexivity.
Qed.

Lemma load_config_ok_witness :
  let env : environ :=
    <[lit "PATH" := lit "/usr/bin"]> (<[lit "AGENT_ID" := lit "asst_9"]> ∅) in
  let cfg := {| PROJECT_ENDPOINT := DEFAULT_PROJECT_ENDPOINT;
                AGENT_ID := lit "asst_9" |} in
  load_config env = Ok cfg /\
  AGENT_ID cfg <> [] /\
  load_config (<[lit "HOME" := lit "/root"]> env) = Ok cfg.
Proof.
  intros env cfg.
  assert (H : load_config env = Ok cfg) by (vm_compute; reflexivity).
  destruct (load_config_ok env cfg H) as (_ & H2 & _ & _ & H5).
  split; [exact H|]. split; [exact H2|].
  apply H5; vm_compute; discriminate.
Defined.

End StartupMore.

(** ** Collecting the replies *)

Section Collecting.
Import Relay Spec.

Lemma index_last_cons {A} (x : A) (xs : list A) :
  exists y, index_last (x :: xs) = Ok y /\ last (x :: xs) = Some y.
Proof.
  revert x. induction xs as [|z xs IH]; intros x.
  - exists x. split; reflexivity.
  - destruct (IH z) as [y [Hy Hl]]. exists y. split; assumption.
Qed.

Lemma last_chunk_last (chunks : list MessageTextContent) :
  last_chunk chunks = text_value <$> last chunks.
Proof.
  unfold last_chunk. induction chunks as [|c chunks IH] using rev_ind.
  - reflexivity.
  - rewrite rev_app_distr, last_snoc. reflexivity.
Qed.

(** Where the condition of line 206 holds the message has chunks, and
    indexing its last one succeeds. *)
Lemma has_reply_chunks (msg : ThreadMessage) :
  has_reply msg = true ->
  exists chunks c,
    text_messages msg = Some chunks /\ chunks <> [] /\
    index_last chunks = Ok c /\
    latest_chunk msg = Ok (text_value c) /\
    selected_chunk msg = Some (text_value c).
Proof.
  unfold has_reply, latest_chunk, selected_chunk. intros H.
  apply andb_prop in H as [Hr Ht]. rewrite Hr.
  destruct (text_messages msg) as [[|c0 chunks]|]; try discriminate.
  destruct (index_last_cons c0 chunks) as [c [Hc Hl]].
  exists (c0 :: chunks), c. rewrite Hc, last_chunk_last, Hl.
  repeat split. discriminate.
Qed.

Lemma has_reply_false (msg : ThreadMessage) :
  has_reply msg = false -> selected_chunk msg = None.
Proof.
  unfold has_reply, selected_chunk. intros H.
  destruct (bool_decide (role msg = lit "assistant")); [|reflexivity].
  destruct (text_messages msg) as [[|c chunks]|]; try reflexivity.
  discriminate.
Qed.

(** The loop returns, and what it adds to [answers] are the selected
    chunks in the order of the listing. *)
Lemma collect_selected (messages : list ThreadMessage) (answers : list pystr) :
  collect messages answers = Ok (answers ++ selected messages).
Proof.
  revert answers. induction messages as [|msg rest IH]; intros answers.
  - simpl. rewrite app_nil_r. reflexivity.
  - cbn [collect]. unfold selected. cbn [omap list_omap].
    destruct (has_reply msg) eqn:E.
    + destruct (has_reply_chunks msg E) as (chunks & c & _ & _ & _ & Hl & Hs).
      rewrite Hl, Hs. cbn [bind]. rewrite IH, <- app_assoc. reflexivity.
    + rewrite (has_reply_false msg E). apply IH.
Qed.

(** C10. Whenever the condition of line 206 holds, [text_messages] is a
    non-empty list, so [text_messages[-1]] yields an element; hence for
    every list of returned messages the loop ends without raising. *)
Theorem text_messages_index_never_fails (messages : list ThreadMessage) :
  (forall msg, has_reply msg = true ->
     exists chunks c,
       text_messages msg = Some chunks /\ chunks <> [] /\
       index_last chunks = Ok c /\ latest_chunk msg = Ok (text_value c)) /\
  (forall answers, exists answers', collect messages answers = Ok answers').
Proof.
  split.
  - intros msg H.
    destruct (has_reply_chunks msg H) as (chunks & c & H1 & H2 & H3 & H4 & _).
    exists chunks, c. repeat split; assumption.
  - intros answers. eexists. apply collect_selected.
Qed.

Lemma text_messages_index_never_fails_witness :
  exists chunks c,
    text_messages (assistant [lit "a"; lit "b"]) = Some chunks /\
    chunks <> [] /\ index_last chunks = Ok c /\
    latest_chunk (assistant [lit "a"; lit "b"]) = Ok (text_value c).
Proof.
  apply (proj1 (text_messages_index_never_fails [])
           (assistant [lit "a"; lit "b"])).
  reflexivity.
Defined.

End Collecting.

(** ** The relay *)

Section RelayFacts.
Import Relay Spec.

Context {World : Type}.
Variable project : AIProjectClient World.
Variable AGENT_ID : pystr.


Ltac relay_unfold :=
  unfold Relay.call_agent, try_except, Relay.call_agent_try, collect_replies,
    mbind, get_agent, threads_create, messages_create, create_and_process,
    messages_list, remote, ret, lift;
  cbn [fst snd].

(** Up to the test of the status. *)
Lemma call_agent_try_run um w tr agent thread run w4 :
  answers_run project AGENT_ID um w agent thread run w4 ->
  call_agent_try project AGENT_ID um (w, tr) =
  (if bool_decide (status run = lit "failed")
   then ret (lit "Run failed: " ++ last_error run)
   else collect_replies project thread)
    (w4, tr ++ requests_of_run AGENT_ID um agent thread).
Proof.
  intros (w1 & w2 & w3 & posted & H1 & H2 & H3 & H4).
  relay_unfold. rewrite H1. cbn [fst snd]. rewrite H2. cbn [fst snd].
  rewrite H3. cbn [fst snd]. rewrite H4. cbn [fst snd].
  unfold Relay.requests_of_run. rewrite <- !app_assoc. reflexivity.
Qed.

(** The listing and what follows it. *)
Lemma collect_replies_listed thread w tr messages w' :
  agents_messages_list project (thread_id thread) ASCENDING w = (Ok messages, w') ->
  collect_replies project thread (w, tr) =
  (Ok (match selected messages with
       | [] => NO_REPLY
       | _ :: _ => strip (join (nl ++ nl) (selected messages))
       end),
   (w', tr ++ [ListMessages (thread_id thread) ASCENDING])).
Proof.
  intros H. relay_unfold. rewrite H. rewrite collect_selected.
  cbn [app]. destruct (selected messages); reflexivity.
Qed.

Lemma collect_replies_raises thread w tr e w' :
  agents_messages_list project (thread_id thread) ASCENDING w = (Raise e, w') ->
  collect_replies project thread (w, tr) =
  (Raise e, (w', tr ++ [ListMessages (thread_id thread) ASCENDING])).
Proof. intros H. relay_unfold. rewrite H. reflexivity. Qed.

(** A relay whose run did not fail and whose listing arrives. *)
Lemma call_agent_listed um w agent thread run w4 messages w5 :
  answers_run project AGENT_ID um w agent thread run w4 ->
  status run <> lit "failed" ->
  agents_messages_list project (thread_id thread) ASCENDING w4 = (Ok messages, w5) ->
  call_agent project AGENT_ID um (w, []) =
  (Ok (match selected messages with
       | [] => NO_REPLY
       | _ :: _ => strip (join (nl ++ nl) (selected messages))
       end),
   (w5, requests_of_run AGENT_ID um agent thread ++
        [ListMessages (thread_id thread) ASCENDING])).
Proof.
  intros Hrun Hst Hlist. unfold Relay.call_agent, try_except.
  rewrite (call_agent_try_run _ _ _ _ _ _ _ Hrun).
  rewrite bool_decide_eq_false_2 by exact Hst.
  rewrite (collect_replies_listed _ _ _ _ _ Hlist). reflexivity.
Qed.

(** C1. When the run has not failed and the listing (requested in
    ascending order) arrives with at least one assistant message carrying
    text, the relay returns the last text chunk of each such message, in
    the order of the listing, with a blank line between them, and without
    the white space at the beginning and the end: what it returns is empty
    or begins and ends with a character that is not white space.  For M1
    with chunks [a; b] followed by M2 with chunk [c] that is [b], a blank
    line and [c], trimmed; nothing is trimmed when [b] does not begin and
    [c] does not end with white space. *)
Theorem call_agent_joins_last_chunks um w agent thread run w4 messages w5 :
  answers_run project AGENT_ID um w agent thread run w4 ->
  status run <> lit "failed" ->
  agents_messages_list project (thread_id thread) ASCENDING w4 =
    (Ok messages, w5) ->
  selected messages <> [] ->
  exists r,
    returned (call_agent project AGENT_ID um) w = Ok r /\
    trimmed_of (with_blank_lines (selected messages)) r /\
    r = strip (join (nl ++ nl) (selected messages)) /\
    (forall a b c,
       messages = [assistant [a; b]; assistant [c]] ->
       trimmed_of (b ++ [10; 10] ++ c) r /\
       (starts_clean b = true -> ends_clean c = true ->
        r = b ++ [10; 10] ++ c)).
Proof.
  intros Hrun Hst Hlist Hsel. unfold returned.
  rewrite (call_agent_listed _ _ _ _ _ _ _ _ Hrun Hst Hlist). cbn [fst].
  assert (E : forall xs : list pystr, xs <> [] ->
            match xs with
            | [] => NO_REPLY
            | _ :: _ => strip (join (nl ++ nl) xs)
            end = strip (join (nl ++ nl) xs)).
  { intros [|x xs] H; [congruence|reflexivity]. }
  rewrite (E _ Hsel). eexists. split; [reflexivity|].
  assert (T : trimmed_of (with_blank_lines (selected messages))
                (strip (join (nl ++ nl) (selected messages)))).
  { rewrite join_with_blank_lines. apply strip_trimmed_of. }
  split; [exact T|]. split; [reflexivity|].
  intros a b c ->.
  change (selected [assistant [a; b]; assistant [c]]) with [b; c] in *.
  change (with_blank_lines [b; c]) with (b ++ ([10; 10] ++ c) ++ []) in T.
  rewrite app_nil_r in T. split; [exact T|].
  intros Hb Hc. rewrite (trimmed_of_strip _ _ T). apply strip_clean.
  - apply starts_clean_app. exact Hb.
  - rewrite !app_assoc. apply ends_clean_app. exact Hc.
Qed.

Lemma selected_nil (messages : list ThreadMessage) :
  (forall msg, In msg messages ->
     ~ (role msg = lit "assistant" /\
        exists c chunks, text_messages msg = Some (c :: chunks))) ->
  selected messages = [].
Proof.
  induction messages as [|msg rest IH]; intros H; [reflexivity|].
  unfold selected. cbn [omap list_omap].
  assert (Hm : selected_chunk msg = None).
  { unfold selected_chunk. case_bool_decide as Hr; [|reflexivity].
    destruct (text_messages msg) as [[|c chunks]|] eqn:Et; try reflexivity.
    exfalso. apply (H msg); [left; reflexivity|].
    split; [exact Hr|]. exists c, chunks. exact Et. }
  rewrite Hm. apply IH. intros m Hin. apply H. right. exact Hin.
Qed.

(** C5. When the run completes and the listing holds no assistant message
    with a text chunk, the relay returns the fixed sentinel, as an
    ordinary result. *)
Theorem call_agent_no_reply_sentinel um w agent thread run w4 messages w5 :
  answers_run project AGENT_ID um w agent thread run w4 ->
  status run = lit "completed" ->
  agents_messages_list project (thread_id thread) ASCENDING w4 =
    (Ok messages, w5) ->
  (forall msg, In msg messages ->
     ~ (role msg = lit "assistant" /\
        exists c chunks, text_messages msg = Some (c :: chunks))) ->
  returned (call_agent project AGENT_ID um) w = Ok (lit "(No assistant reply found.)").
Proof.
  intros Hrun Hst Hlist Hnone. unfold returned.
  assert (Hnf : status run <> lit "failed") by (rewrite Hst; discriminate).
  rewrite (call_agent_listed _ _ _ _ _ _ _ _ Hrun Hnf Hlist).
  rewrite (selected_nil _ Hnone). reflexivity.
Qed.

(** C2, amended. Only the status [failed] stops the relay before the
    listing: it then returns [Run failed: ] followed by the error detail,
    having asked for one run and no listing.  With any other status,
    [completed] or not, the relay goes on to list the messages, again after
    a single run. *)
Theorem call_agent_only_failed_stops um w agent thread run w4 :
  answers_run project AGENT_ID um w agent thread run w4 ->
  (status run = lit "failed" ->
     returned (call_agent project AGENT_ID um) w = Ok (lit "Run failed: " ++ last_error run) /\
     sent (call_agent project AGENT_ID um) w = requests_of_run AGENT_ID um agent thread) /\
  (status run <> lit "failed" ->
     sent (call_agent project AGENT_ID um) w =
     requests_of_run AGENT_ID um agent thread ++
     [ListMessages (thread_id thread) ASCENDING]) /\
  length (List.filter is_run (sent (call_agent project AGENT_ID um) w)) = 1%nat.
Proof.
  intros Hrun. unfold returned, sent, Relay.call_agent, try_except.
  rewrite (call_agent_try_run _ _ _ _ _ _ _ Hrun). cbn [app].
  case_bool_decide as Hst.
  - split; [intros _; split; reflexivity|]. split; [congruence|reflexivity].
  - split; [congruence|].
    destruct (agents_messages_list project (thread_id thread) ASCENDING w4)
      as [[messages|e] w5] eqn:Hlist.
    + rewrite (collect_replies_listed _ _ _ _ _ Hlist).
      split; [intros _; reflexivity|reflexivity].
    + rewrite (collect_replies_raises _ _ _ _ _ Hlist).
      destruct (is_Exception (exn_class e));
        (split; [intros _; reflexivity|reflexivity]).
Qed.

Ltac relay_cases :=
  repeat match goal with
    | _ => progress cbn [fst snd app]
    | |- context [agents_get_agent project ?a ?w] =>
        destruct (agents_get_agent project a w) as [[? | ?] ?] eqn:?
    | |- context [agents_threads_create project ?w] =>
        destruct (agents_threads_create project w) as [[? | ?] ?] eqn:?
    | |- context [agents_messages_create project ?t ?r ?c ?w] =>
        destruct (agents_messages_create project t r c w) as [[? | ?] ?] eqn:?
    | |- context [agents_runs_create_and_process project ?t ?a ?w] =>
        destruct (agents_runs_create_and_process project t a w)
          as [[? | ?] ?] eqn:?
    | |- context [agents_messages_list project ?t ?o ?w] =>
        destruct (agents_messages_list project t o w) as [[? | ?] ?] eqn:?
    | |- context [bool_decide (status ?r = ?s)] =>
        destruct (bool_decide (status r = s)) eqn:?
    | |- context [is_Exception (exn_class ?e)] =>
        destruct (is_Exception (exn_class e)) eqn:?
    | |- context [collect ?m []] => rewrite (collect_selected m [])
    | |- context [selected ?m] => destruct (selected m) eqn:?
    end.

(** The requests of a relay are added to those sent before; nothing else
    of the earlier requests is looked at. *)
Lemma call_agent_frame um w tr :
  call_agent project AGENT_ID um (w, tr) =
  (returned (call_agent project AGENT_ID um) w,
   (world_after (call_agent project AGENT_ID um) w, tr ++ sent (call_agent project AGENT_ID um) w)).
Proof.
  unfold returned, world_after, sent. relay_unfold. relay_cases;
    rewrite <- ?app_assoc; reflexivity.
Qed.

Lemma call_agent_try_raises um w e :
  raises_at project AGENT_ID um w e -> exists s, call_agent_try project AGENT_ID um (w, []) = (Raise e, s).
Proof.
  intros [w1 H1|agent w1 w2 H1 H2|agent thread w1 w2 w3 H1 H2 H3
         |agent thread posted w1 w2 w3 w4 H1 H2 H3 H4
         |agent thread run w4 w5 Hrun Hst Hlist].
  - relay_unfold. rewrite H1. eexists. reflexivity.
  - relay_unfold. rewrite H1. cbn [fst snd]. rewrite H2. eexists. reflexivity.
  - relay_unfold. rewrite H1. cbn [fst snd]. rewrite H2. cbn [fst snd].
    rewrite H3. eexists. reflexivity.
  - relay_unfold. rewrite H1. cbn [fst snd]. rewrite H2. cbn [fst snd].
    rewrite H3. cbn [fst snd]. rewrite H4. eexists. reflexivity.
  - rewrite (call_agent_try_run _ _ _ _ _ _ _ Hrun).
    rewrite bool_decide_eq_false_2 by exact Hst.
    rewrite (collect_replies_raises _ _ _ _ _ Hlist). eexists. reflexivity.
Qed.

Lemma call_agent_try_raised um w e s :
  call_agent_try project AGENT_ID um (w, []) = (Raise e, s) -> raises_at project AGENT_ID um w e.
Proof.
  relay_unfold.
  destruct (agents_get_agent project AGENT_ID w) as [[agent|e1] w1] eqn:H1;
    cbn [fst snd].
  2: { intros [= <- _]. eapply raises_get_agent. exact H1. }
  destruct (agents_threads_create project w1) as [[thread|e2] w2] eqn:H2;
    cbn [fst snd].
  2: { intros [= <- _]. eapply raises_threads_create; eassumption. }
  destruct (agents_messages_create project (thread_id thread) (lit "user") um w2)
    as [[posted|e3] w3] eqn:H3; cbn [fst snd].
  2: { intros [= <- _]. eapply raises_messages_create; eassumption. }
  destruct (agents_runs_create_and_process project (thread_id thread)
              (agent_id agent) w3) as [[run|e4] w4] eqn:H4; cbn [fst snd].
  2: { intros [= <- _]. eapply raises_create_and_process; eassumption. }
  case_bool_decide as Hst; [discriminate|]. cbn [fst snd].
  destruct (agents_messages_list project (thread_id thread) ASCENDING w4)
    as [[messages|e5] w5] eqn:H5; cbn [fst snd].
  - rewrite collect_selected. cbn [app].
    destruct (selected messages); discriminate.
  - intros [= <- _].
    refine (raises_messages_list _ _ _ _ _ agent thread run w4 w5 _ Hst H5).
    exists w1, w2, w3, posted. auto.
Qed.

Lemma single_line_error (s : pystr) :
  single_line (lit "Error calling agent: " ++ s) = single_line s.
Proof. unfold single_line. rewrite forallb_app. reflexivity. Qed.

(** C4, amended. Whatever request raises an exception derived from
    [Exception], the relay returns [Error calling agent: ] followed by the
    text of the exception, which is one line when that text is.  What
    leaves the relay as an exception was raised by a request and is not
    derived from [Exception]. *)
Theorem call_agent_catches_exceptions um w :
  (forall e, raises_at project AGENT_ID um w e -> is_Exception (exn_class e) = true ->
     returned (call_agent project AGENT_ID um) w =
       Ok (lit "Error calling agent: " ++ exn_str e) /\
     (single_line (exn_str e) = true ->
      single_line (lit "Error calling agent: " ++ exn_str e) = true)) /\
  (forall e, returned (call_agent project AGENT_ID um) w = Raise e ->
     is_Exception (exn_class e) = false /\ raises_at project AGENT_ID um w e).
Proof.
  split.
  - intros e Hr He. split; [|rewrite single_line_error; trivial].
    destruct (call_agent_try_raises um w e Hr) as [s Hs].
    unfold returned, Relay.call_agent, try_except. rewrite Hs, He. reflexivity.
  - intros e. unfold returned, Relay.call_agent, try_except.
    destruct (call_agent_try project AGENT_ID um (w, [])) as [[r|e'] s] eqn:Ht;
      [discriminate|].
    destruct (is_Exception (exn_class e')) eqn:He; [discriminate|].
    cbn [fst]. intros [= <-]. split; [exact He|].
    exact (call_agent_try_raised um w e' s Ht).
Qed.

(** C9, amended. A relay whose agent lookup raises sends nothing else: no
    thread is created.  Otherwise it asks for exactly one new thread, and
    when that thread is created it posts the user's message to it, once,
    and addresses every later request to it.  A second relay for the same
    message sends its own requests, after those of the first. *)
Theorem call_agent_thread_per_request um w :
  match agents_get_agent project AGENT_ID w with
  | (Raise _, _) => sent (call_agent project AGENT_ID um) w = [GetAgent AGENT_ID]
  | (Ok agent, w1) =>
      length (List.filter is_create_thread (sent (call_agent project AGENT_ID um) w)) = 1%nat /\
      match agents_threads_create project w1 with
      | (Raise _, _) => List.filter is_post (sent (call_agent project AGENT_ID um) w) = []
      | (Ok thread, _) =>
          List.filter is_post (sent (call_agent project AGENT_ID um) w) =
            [CreateMessage (thread_id thread) (lit "user") um] /\
          (forall c t, In c (sent (call_agent project AGENT_ID um) w) ->
                       thread_of c = Some t -> t = thread_id thread)
      end
  end /\
  (forall r, returned (call_agent project AGENT_ID um) w = Ok r ->
     sent (twice (call_agent project AGENT_ID um)) w =
     sent (call_agent project AGENT_ID um) w ++
     sent (call_agent project AGENT_ID um) (world_after (call_agent project AGENT_ID um) w)).
Proof.
  split.
  - unfold sent. relay_unfold. relay_cases; repeat split; try reflexivity;
      intros c t Hin Ht; cbn [In] in Hin;
      repeat (destruct Hin as [<-|Hin]; [cbn in Ht; congruence|]);
      contradiction.
  - intros r Hr. unfold sent at 1. unfold twice, mbind.
    rewrite (call_agent_frame um w []). rewrite Hr.
    rewrite call_agent_frame. reflexivity.
Qed.

(** The routes: the empty page, and the page for the relay's answer. *)
Lemma index_page (w : World) :
  returned index w =
  Ok (HTML200 (Page.page_head ++ Page.page_mid ++ Page.page_tail)).
Proof.
  unfold returned, index, mbind, lift, ret. cbn [fst].
  rewrite render_returns by reflexivity. reflexivity.
Qed.

Lemma chat_page c m w answer :
  returned (call_agent project AGENT_ID (c :: m)) w = Ok answer ->
  returned (chat project AGENT_ID (Some (c :: m))) w =
  bind (Render.render (PStr (c :: m)) (PStr answer))
       (fun html => Ok (HTML200 html)).
Proof.
  unfold returned, chat, mbind, lift, ret.
  destruct (call_agent project AGENT_ID (c :: m) (w, [])) as [[r|e] s];
    cbn [fst]; intros [= ->];
    destruct (Render.render (PStr (c :: m)) (PStr answer)); reflexivity.
Qed.

End RelayFacts.

(** ** The relay against the scripted service *)

Section RelayRuns.
Import Relay Spec Demo.


Lemma answering_run st err msgs :
  answers_run (scripted (answering st err msgs)) AID hello 0%nat
    the_agent thread0 {| status := st; last_error := err |} 1%nat.
Proof.
  exists 0%nat, 1%nat, 1%nat,
    {| role := lit "user"; text_messages := Some [{| text_value := hello |}] |}.
  repeat split.
Defined.

Lemma call_agent_joins_last_chunks_witness :
  let msgs := [assistant [lit "a"; lit "  b"]; assistant [lit "c " ++ nl]] in
  selected msgs <> [] /\
  returned (call_agent (scripted (answering (lit "completed") (lit "None") msgs))
              AID hello) 0%nat
  = Ok (lit "b" ++ [10; 10] ++ lit "c") /\
  exists r,
    returned (call_agent (scripted (answering (lit "completed") (lit "None") msgs))
                AID hello) 0%nat = Ok r /\
    trimmed_of (lit "  b" ++ [10; 10] ++ lit "c " ++ nl) r.
Proof.
  intros msgs.
  assert (Hsel : selected msgs <> []) by discriminate.
  split; [exact Hsel|]. split; [reflexivity|].
  destruct (call_agent_joins_last_chunks
              (scripted (answering (lit "completed") (lit "None") msgs))
              AID hello 0%nat the_agent thread0 _ 1%nat msgs 1%nat
              (answering_run _ _ _) ltac:(discriminate) eq_refl Hsel)
    as (r & Hr & _ & _ & H).
  exists r. split; [exact Hr|].
  exact (proj1 (H (lit "a") (lit "  b") (lit "c " ++ nl) eq_refl)).
Defined.

Lemma call_agent_no_reply_sentinel_witness :
  returned (call_agent
              (scripted (answering (lit "completed") (lit "None")
                           [user hello; assistant []]))
              AID hello) 0%nat
  = Ok (lit "(No assistant reply found.)").
Proof.
  refine (call_agent_no_reply_sentinel
            (scripted (answering (lit "completed") (lit "None")
                         [user hello; assistant []]))
            AID hello 0%nat the_agent thread0 _ 1%nat
            [user hello; assistant []] 1%nat
            (answering_run _ _ _) eq_refl eq_refl _).
  intros msg [<-|[<-|[]]] [Hr (c & chunks & Hc)]; discriminate.
Defined.

(** C2 fails for the status [cancelled]: the relay lists the messages and
    returns the reply found there, not an error string. *)
Lemma call_agent_cancelled_is_collected :
  let p := scripted (answering (lit "cancelled") (lit "None")
                       [user hello; assistant [lit "partial"]]) in
  returned (call_agent p AID hello) 0%nat = Ok (lit "partial") /\
  In (ListMessages (thread_name 0) ASCENDING) (sent (call_agent p AID hello) 0%nat).
Proof.
  split; [reflexivity|]. vm_compute. do 4 right. left. reflexivity.
Qed.

Lemma call_agent_only_failed_stops_witness :
  let p := scripted (answering (lit "failed") (lit "rate_limit_exceeded") []) in
  returned (call_agent p AID hello) 0%nat =
    Ok (lit "Run failed: " ++ lit "rate_limit_exceeded") /\
  sent (call_agent p AID hello) 0%nat =
    requests_of_run AID hello the_agent thread0.
Proof.
  intros p.
  exact (proj1 (call_agent_only_failed_stops p AID hello 0%nat the_agent thread0
                  _ 1%nat (answering_run _ _ _)) eq_refl).
Defined.

(** C4 fails twice over: the text of an HTTP error spans several lines, so
    does the returned string; and an exception that is not derived from
    [Exception] leaves the relay. *)
Lemma call_agent_error_lines_and_escape :
  (exists s,
     returned (call_agent
                 (scripted (unreachable
                    (Exn HttpResponseError
                       (lit "(401) Unauthorized" ++ nl ++ lit "Code: 401"))))
                 AID hello) 0%nat = Ok s /\
     single_line s = false) /\
  returned (call_agent (scripted (unreachable (Exn KeyboardInterrupt [])))
              AID hello) 0%nat
  = Raise (Exn KeyboardInterrupt []).
Proof.
  split; [|reflexivity]. eexists. split; reflexivity.
Qed.

Lemma call_agent_catches_exceptions_witness :
  let e := Exn ClientAuthenticationError (lit "token expired") in
  returned (call_agent (scripted (unreachable e)) AID hello) 0%nat =
    Ok (lit "Error calling agent: " ++ lit "token expired") /\
  single_line (lit "Error calling agent: " ++ lit "token expired") = true.
Proof.
  intros e.
  destruct (proj1 (call_agent_catches_exceptions (scripted (unreachable e))
                     AID hello 0%nat) e) as [H1 H2].
  - eapply raises_get_agent. reflexivity.
  - reflexivity.
  - split; [exact H1|]. apply H2. reflexivity.
Defined.

(** C9 fails when the agent lookup raises: the relay sends that one request,
    creates no thread and posts nothing. *)
Lemma call_agent_no_thread_when_lookup_fails :
  let p := scripted (unreachable (Exn ClientAuthenticationError (lit "denied"))) in
  sent (call_agent p AID hello) 0%nat = [GetAgent AID] /\
  List.filter is_create_thread (sent (call_agent p AID hello) 0%nat) = [] /\
  List.filter is_post (sent (call_agent p AID hello) 0%nat) = [].
Proof. repeat split. Qed.

Lemma call_agent_thread_per_request_witness :
  let p := scripted (answering (lit "completed") (lit "None")
                       [assistant [lit "fine"]]) in
  returned (call_agent p AID hello) 0%nat = Ok (lit "fine") /\
  sent (twice (call_agent p AID hello)) 0%nat =
    sent (call_agent p AID hello) 0%nat ++ sent (call_agent p AID hello) 1%nat.
Proof.
  intros p. split; [reflexivity|].
  exact (proj2 (call_agent_thread_per_request p AID hello 0%nat)
           (lit "fine") eq_refl).
Defined.

End RelayRuns.


(** ** More on the relay and the routes *)

Section RelayMore.
Import Relay Spec Page Render.

Context {World : Type}.
Variable project : AIProjectClient World.
Variable AGENT_ID : pystr.

Ltac relay_unfold :=
  unfold Relay.call_agent, try_except, Relay.call_agent_try, collect_replies,
    mbind, get_agent, threads_create, messages_create, create_and_process,
    messages_list, remote, ret, lift;
  cbn [fst snd].

Ltac relay_cases :=
  repeat match goal with
    | _ => progress cbn [fst snd app]
    | |- context [agents_get_agent project ?a ?w] =>
        destruct (agents_get_agent project a w) as [[? | ?] ?] eqn:?
    | |- context [agents_threads_create project ?w] =>
        destruct (agents_threads_create project w) as [[? | ?] ?] eqn:?
    | |- context [agents_messages_create project ?t ?r ?c ?w] =>
        destruct (agents_messages_create project t r c w) as [[? | ?] ?] eqn:?
    | |- context [agents_runs_create_and_process project ?t ?a ?w] =>
        destruct (agents_runs_create_and_process project t a w)
          as [[? | ?] ?] eqn:?
    | |- context [agents_messages_list project ?t ?o ?w] =>
        destruct (agents_messages_list project t o w) as [[? | ?] ?] eqn:?
    | |- context [bool_decide (status ?r = ?s)] =>
        destruct (bool_decide (status r = s)) eqn:?
    | |- context [is_Exception (exn_class ?e)] =>
        destruct (is_Exception (exn_class e)) eqn:?
    | |- context [collect ?m []] => rewrite (collect_selected m [])
    | |- context [selected ?m] => destruct (selected m) eqn:?
    end.

(** X7. Every relay sends at least one and at most five requests, and
    always a beginning of the same sequence: agent lookup, thread creation,
    message, run, listing.  No request is repeated and none is sent out of
    turn, whatever the service answers. *)
Theorem call_agent_request_order um w :
  (kind_of <$> sent (call_agent project AGENT_ID um) w) `prefix_of` protocol /\
  (1 <= length (sent (call_agent project AGENT_ID um) w) <= 5)%nat.
Proof.
  unfold sent. relay_unfold. relay_cases;
    (split; [eexists; reflexivity|cbn [length]; lia]).
Qed.

Lemma call_agent_raise_class um s e s' :
  call_agent project AGENT_ID um s = (Raise e, s') ->
  is_Exception (exn_class e) = false.
Proof.
  unfold Relay.call_agent, try_except.
  destruct (call_agent_try project AGENT_ID um s) as [[r|e'] s''];
    [discriminate|].
  destruct (is_Exception (exn_class e')) eqn:He; [discriminate|].
  intros [= <- _]. exact He.
Qed.

(** X10. The chat route answers a form whose message is missing or empty
    with 422 and sends nothing.  For any other message it sends the
    requests of the relay and no other.  When the relay returns a string,
    an error text as well as a reply, the route returns the page with the
    message in the field and that string in the answer block, provided
    neither has a surrogate; if one has, building the response raises
    [UnicodeEncodeError].  When the relay raises, the route raises the
    same exception, which is not derived from [Exception]. *)
Theorem chat_outcomes (message : option pystr) w :
  match message with
  | None | Some [] =>
      returned (chat project AGENT_ID message) w = Ok Unprocessable422 /\
      sent (chat project AGENT_ID message) w = []
  | Some (c :: m) =>
      sent (chat project AGENT_ID message) w =
        sent (call_agent project AGENT_ID (c :: m)) w /\
      match returned (call_agent project AGENT_ID (c :: m)) w with
      | Ok answer =>
          (encodable (c :: m) = true -> encodable answer = true ->
             returned (chat project AGENT_ID message) w =
             Ok (HTML200 (page_head ++ field_text (c :: m) answer ++ page_mid ++
                          block_for answer ++ page_tail))) /\
          (encodable (c :: m) = false \/ encodable answer = false ->
             exists e,
               returned (chat project AGENT_ID message) w = Raise e /\
               exn_class e = UnicodeEncodeError)
      | Raise e =>
          returned (chat project AGENT_ID message) w = Raise e /\
          is_Exception (exn_class e) = false
      end
  end.
Proof.
  destruct message as [[|c m]|]; [split; reflexivity| |split; reflexivity].
  unfold sent, returned, chat, mbind, lift, ret.
  destruct (call_agent project AGENT_ID (c :: m) (w, [])) as [[answer|e] s] eqn:E;
    cbn [fst snd].
  - split; [destruct (Render.render (PStr (c :: m)) (PStr answer)); reflexivity|].
    split.
    + intros Hm Ha. rewrite (render_returns _ _ Hm Ha). reflexivity.
    + intros H. destruct (render_surrogate (c :: m) answer H) as (e & He & Hc).
      rewrite He. exists e. split; [reflexivity|exact Hc].
  - split; [reflexivity|]. split; [reflexivity|].
    exact (call_agent_raise_class (c :: m) _ e s E).
Qed.

(** X8. A reply assembled from the listing is empty or has no white space
    at either end; it is empty exactly when there are chunks and all of
    them are white space. *)
Theorem call_agent_reply_trimmed um w agent thread run w4 messages w5 :
  answers_run project AGENT_ID um w agent thread run w4 ->
  status run <> lit "failed" ->
  agents_messages_list project (thread_id thread) ASCENDING w4 =
    (Ok messages, w5) ->
  exists r,
    returned (call_agent project AGENT_ID um) w = Ok r /\
    (r = [] \/ (starts_clean r = true /\ ends_clean r = true)) /\
    (r = [] <->
     selected messages <> [] /\ forallb blank (selected messages) = true).
Proof.
  intros Hrun Hst Hlist. unfold returned.
  rewrite (call_agent_listed _ _ _ _ _ _ _ _ _ _ Hrun Hst Hlist). cbn [fst].
  eexists. split; [reflexivity|].
  destruct (selected messages) as [|x xs] eqn:Es.
  - split; [right; split; reflexivity|].
    split; [discriminate|]. intros [H _]. congruence.
  - split; [apply strip_trimmed|].
    rewrite strip_nil, blank_join. split; [|tauto].
    intros H. split; [discriminate|exact H].
Qed.

Lemma field_text_empty_no_lt (m : pystr) : absent 60 (field_text m []) = true.
Proof.
  unfold field_text. cbn [block_for]. pose proof (escape_no_lt m) as H.
  revert H.
  apply (replace_scan answer_slot []
           (fun s r => absent 60 s = true -> absent 60 r = true));
    [discriminate| | |].
  - intros _. reflexivity.
  - intros c s r _ IH Hs. apply absent_head in Hs as [Hc Hs].
    cbn [absent forallb]. rewrite Hc. apply IH. exact Hs.
  - intros s r IH Hs. unfold absent in Hs. rewrite forallb_app in Hs.
    apply andb_prop in Hs as [_ Hs]. apply IH. exact Hs.
Qed.

(** Without an answer the page has no answer container, whatever the
    message. *)
Lemma count_answer_tag_none (m : pystr) :
  count_at answer_tag (page_head ++ field_text m [] ++ page_mid ++ page_tail)
  = 0%nat.
Proof.
  change answer_tag with (60 :: drop 1 answer_tag).
  rewrite page_head_part, count_at_part by (vm_compute; reflexivity).
  rewrite (count_at_skip 60 _ (field_text m []))
    by apply field_text_empty_no_lt.
  vm_compute. reflexivity.
Qed.

(** X9. When every chunk taken from the listing is white space the relay
    returns the empty string, not the sentinel, and the chat route, for a
    message without surrogate, answers with the page [render] gives for no
    answer at all: the answer container does not occur in it. *)
Theorem chat_blank_reply c m w agent thread run w4 messages w5 :
  encodable (c :: m) = true ->
  answers_run project AGENT_ID (c :: m) w agent thread run w4 ->
  status run <> lit "failed" ->
  agents_messages_list project (thread_id thread) ASCENDING w4 =
    (Ok messages, w5) ->
  selected messages <> [] ->
  forallb blank (selected messages) = true ->
  returned (call_agent project AGENT_ID (c :: m)) w = Ok [] /\
  exists html,
    returned (chat project AGENT_ID (Some (c :: m))) w = Ok (HTML200 html) /\
    Render.render (PStr (c :: m)) (PStr []) = Ok html /\
    count_at answer_tag html = 0%nat.
Proof.
  intros Henc Hrun Hst Hlist Hsel Hblank.
  assert (Hr : returned (call_agent project AGENT_ID (c :: m)) w = Ok []).
  { unfold returned.
    rewrite (call_agent_listed _ _ _ _ _ _ _ _ _ _ Hrun Hst Hlist). cbn [fst].
    destruct (selected messages) as [|x xs] eqn:Es; [congruence|].
    f_equal. apply strip_nil. rewrite blank_join. exact Hblank. }
  split; [exact Hr|].
  assert (Hp : Render.render (PStr (c :: m)) (PStr []) =
               Ok (page_for (c :: m) [])) by (apply render_returns; auto).
  exists (page_for (c :: m) []). split; [|split].
  - rewrite (chat_page _ _ _ _ _ _ Hr), Hp. reflexivity.
  - exact Hp.
  - apply count_answer_tag_none.
Qed.

End RelayMore.

(** ** Further runs against the scripted service *)

Section RelayRunsMore.
Import Relay Spec Demo Page Render.

Lemma call_agent_reply_trimmed_witness :
  exists r,
    returned (call_agent
                (scripted (answering (lit "completed") (lit "None")
                             [user hello; assistant [lit "  hi there "]]))
                AID hello) 0%nat = Ok r /\
    (r = [] \/ (starts_clean r = true /\ ends_clean r = true)).
Proof.
  destruct (call_agent_reply_trimmed
              (scripted (answering (lit "completed") (lit "None")
                           [user hello; assistant [lit "  hi there "]]))
              AID hello 0%nat the_agent thread0 _ 1%nat
              [user hello; assistant [lit "  hi there "]] 1%nat
              (answering_run _ _ _) ltac:(discriminate) eq_refl)
    as (r & H1 & H2 & _).
  exists r. split; assumption.
Defined.

Lemma chat_blank_reply_witness :
  returned (call_agent
              (scripted (answering (lit "completed") (lit "None")
                           [user hello; assistant [lit " "]; assistant [nl]]))
              AID hello) 0%nat = Ok [] /\
  exists html,
    returned (chat
                (scripted (answering (lit "completed") (lit "None")
                             [user hello; assistant [lit " "]; assistant [nl]]))
                AID (Some hello)) 0%nat = Ok (HTML200 html) /\
    Render.render (PStr hello) (PStr []) = Ok html /\
    count_at answer_tag html = 0%nat.
Proof.
  refine (chat_blank_reply
            (scripted (answering (lit "completed") (lit "None")
                         [user hello; assistant [lit " "]; assistant [nl]]))
            AID 104 (lit "ello") 0%nat the_agent thread0 _ 1%nat
            [user hello; assistant [lit " "]; assistant [nl]] 1%nat
            eq_refl (answering_run _ _ _) _ eq_refl _ eq_refl); discriminate.
Defined.

Lemma chat_outcomes_witness :
  returned (chat (scripted (answering (lit "completed") (lit "None")
                              [assistant [lit "fine"]]))
              AID (Some hello)) 0%nat =
    Ok (HTML200 (page_head ++ hello ++ page_mid ++ block_for (lit "fine") ++
                 page_tail)) /\
  (exists e,
     returned (chat (scripted (answering (lit "completed") (lit "None")
                                 [assistant [[56832]]]))
                 AID (Some hello)) 0%nat = Raise e /\
     exn_class e = UnicodeEncodeError).
Proof.
  split.
  - apply (proj1 (proj2 (chat_outcomes
             (scripted (answering (lit "completed") (lit "None")
                          [assistant [lit "fine"]]))
             AID (Some hello) 0%nat))); reflexivity.
  - apply (proj2 (proj2 (chat_outcomes
             (scripted (answering (lit "completed") (lit "None")
                          [assistant [[56832]]]))
             AID (Some hello) 0%nat))).
    right. reflexivity.
Defined.

End RelayRunsMore.
